(** * TinyImageNet dataset adapter: a shallow embedding and its properties

    The development follows [colorization/data/tiny_image_net.py]: a dataset
    handle that indexes the image files of the three splits of a Tiny ImageNet
    directory tree, optionally filters (and deletes) the files that are not
    RGB, and retrieves single items or slices of the active split.

    Python values are modelled as the code has them: [str] as [string] (code
    points 0..255, where the only decimal digits are "0".."9"), [int] as [Z],
    [list] as [list], the [dict] of indices as an association list in
    insertion order, exceptions as an error type, and the file system together
    with the calls to the external collaborators as an explicit world that is
    threaded through every effectful method. *)

From Stdlib Require Import String Ascii List ZArith Lia Bool.
From Stdlib Require Import Sorting.Sorted Sorting.Permutation.
From Stdlib Require Import Structures.OrderedTypeEx.
Import ListNotations.

Local Open Scope string_scope.
Local Open Scope Z_scope.

(* ================================================================== *)
(** ** Exceptions and results *)

(** The exceptions of the module.  [ExternalError] stands for whatever [os]
    or [skimage] raise for a path: a missing or unreadable file, a
    directory, a file that does not decode. *)
Inductive exn : Type :=
| ValueError (msg : string)
| AssertionError
| NameError (name : string)
| IndexError
| KeyError (key : string)
| AttributeError (msg : string)
| ExternalError (path : string).

Inductive result (A : Type) : Type :=
| Ok (a : A)
| Raise (e : exn).

Arguments Ok {A} a.
Arguments Raise {A} e.

Module Res.

Definition bind {A B} (r : result A) (k : A -> result B) : result B :=
  match r with
  | Ok a => k a
  | Raise e => Raise e
  end.

Fixpoint mapM {A B} (f : A -> result B) (l : list A) : result (list B) :=
  match l with
  | [] => Ok []
  | x :: l' =>
      bind (f x) (fun y => bind (mapM f l') (fun ys => Ok (y :: ys)))
  end.

End Res.

Declare Scope res_scope.
Delimit Scope res_scope with res.
Notation "x <- m ;; k" := (Res.bind m (fun x => k))
  (at level 61, m at next level, right associativity) : res_scope.

(* ================================================================== *)
(** ** Python built-ins used by the module *)

Module Py.

(** [lst[i]] for a Python [int] index: negative positions count from the
    end, everything outside [-len, len) raises [IndexError]. *)
Definition list_getitem {A} (l : list A) (i : Z) : result A :=
  let n := Z.of_nat (List.length l) in
  let j := if i <? 0 then i + n else i in
  if (0 <=? j) && (j <? n) then
    match nth_error l (Z.to_nat j) with
    | Some x => Ok x
    | None => Raise IndexError
    end
  else Raise IndexError.

(** A [dict] with [str] keys, kept in insertion order. *)
Definition dict (V : Type) : Type := list (string * V).

Fixpoint dict_get {V} (d : dict V) (k : string) : result V :=
  match d with
  | [] => Raise (KeyError k)
  | (k', v) :: d' => if String.eqb k' k then Ok v else dict_get d' k
  end.

(** [d[k] = v]: an existing key keeps its position, a new key goes last. *)
Fixpoint dict_set {V} (d : dict V) (k : string) (v : V) : dict V :=
  match d with
  | [] => [(k, v)]
  | (k', v') :: d' =>
      if String.eqb k' k then (k, v) :: d' else (k', v') :: dict_set d' k v
  end.

Definition keys {V} (d : dict V) : list string := map fst d.

(** [range(start, stop, step)] for a non-zero step. *)
Definition range (start stop step : Z) : list Z :=
  let n :=
    if 0 <? step then (stop - start + step - 1) / step
    else (start - stop - step - 1) / (- step) in
  map (fun k => start + Z.of_nat k * step) (seq 0 (Z.to_nat n)).

(** A [slice] object: each of start, stop and step is an [int] or [None]. *)
Record slice : Type := Slice {
  slice_start : option Z;
  slice_stop : option Z;
  slice_step : option Z
}.

(** [slice.indices(length)], as CPython's sliceobject.c computes it. *)
Definition slice_indices (s : slice) (length : Z) : result (Z * Z * Z) :=
  let step := match slice_step s with None => 1 | Some k => k end in
  if step =? 0 then Raise (ValueError "slice step cannot be zero")
  else if length <? 0 then Raise (ValueError "length should not be negative")
  else
    let lower := if step <? 0 then -1 else 0 in
    let upper := if step <? 0 then length - 1 else length in
    let clamp (v : Z) :=
      if v <? 0 then Z.max (v + length) lower else Z.min v upper in
    let start :=
      match slice_start s with
      | None => if step <? 0 then upper else lower
      | Some v => clamp v
      end in
    let stop :=
      match slice_stop s with
      | None => if step <? 0 then lower else upper
      | Some v => clamp v
      end in
    Ok (start, stop, step).

(** *** Strings *)

Definition newline : ascii := ascii_of_nat 10.

(** [\d] on code points 0..255. *)
Definition is_digit (c : ascii) : bool :=
  let n := nat_of_ascii c in
  (48 <=? n)%nat && (n <=? 57)%nat.

Definition digit_value (c : ascii) : Z := Z.of_nat (nat_of_ascii c) - 48.

(** [s[:i]] and [s[i:]] for [0 <= i]. *)
Fixpoint str_take (i : nat) (s : string) : string :=
  match i, s with
  | O, _ => EmptyString
  | S _, EmptyString => EmptyString
  | S i', String c s' => String c (str_take i' s')
  end.

Fixpoint str_drop (i : nat) (s : string) : string :=
  match i, s with
  | O, _ => s
  | S _, EmptyString => EmptyString
  | S i', String _ s' => str_drop i' s'
  end.

(** [s.rfind(".")]: position of the last dot. *)
Fixpoint rfind_dot (s : string) : option nat :=
  match s with
  | EmptyString => None
  | String c s' =>
      match rfind_dot s' with
      | Some i => Some (S i)
      | None => if Ascii.eqb c "." then Some O else None
      end
  end.

(** [s.rsplit(".", 1)[0]]: everything before the last dot, the whole string
    when there is none. *)
Definition rsplit_dot_head (s : string) : string :=
  match rfind_dot s with
  | Some i => str_take i s
  | None => s
  end.

(** The rest of the pattern [\d+$] once one digit has been read: more
    digits, then the end of the string or the newline that ends it. *)
Fixpoint digits_eol (s : string) : bool :=
  match s with
  | EmptyString => true
  | String c s' =>
      if is_digit c then digits_eol s'
      else Ascii.eqb c newline && String.eqb s' EmptyString
  end.

Definition match_digits_eol (s : string) : bool :=
  match s with
  | EmptyString => false
  | String c s' => is_digit c && digits_eol s'
  end.

(** [re.search(r'\d+$', s)]: the leftmost position at which the pattern
    matches, [None] when there is none; the result is [m.start()]. *)
Fixpoint re_search_digits_eol (s : string) : option nat :=
  match s with
  | EmptyString => None
  | String c s' =>
      if match_digits_eol (String c s') then Some O
      else option_map S (re_search_digits_eol s')
  end.

Definition is_space (c : ascii) : bool :=
  let n := nat_of_ascii c in
  ((9 <=? n)%nat && (n <=? 13)%nat) || (n =? 32)%nat.

Fixpoint lstrip (s : string) : string :=
  match s with
  | EmptyString => EmptyString
  | String c s' => if is_space c then lstrip s' else s
  end.

(** Decimal digits followed by white space only; [acc] is the value read so
    far and [seen] tells whether a digit was read. *)
Fixpoint int_digits (s : string) (acc : Z) (seen : bool) : option Z :=
  match s with
  | EmptyString => if seen then Some acc else None
  | String c s' =>
      if is_digit c then int_digits s' (10 * acc + digit_value c) true
      else if seen && String.eqb (lstrip (String c s')) EmptyString
           then Some acc else None
  end.

(** [int(s)] for a string of decimal digits with optional surrounding ASCII
    white space and sign (digit separators are not modelled: no caller in
    this module produces them). *)
Definition int (s : string) : result Z :=
  let body := lstrip s in
  let parsed :=
    match body with
    | String "-" s' => option_map Z.opp (int_digits s' 0 false)
    | String "+" s' => int_digits s' 0 false
    | _ => int_digits body 0 false
    end in
  match parsed with
  | Some n => Ok n
  | None => Raise (ValueError "invalid literal for int() with base 10")
  end.

(** [os.path.join(a, b)] on POSIX. *)
Definition ends_with_slash (s : string) : bool :=
  match String.get (Nat.pred (String.length s)) s with
  | Some c => Ascii.eqb c "/"
  | None => false
  end.

Definition path_join (a b : string) : string :=
  match b with
  | String "/" _ => b
  | _ =>
      if String.eqb a EmptyString || ends_with_slash a then a ++ b
      else a ++ "/" ++ b
  end.

(** *** Stable sorting *)

Section Sort.
Context {A : Type} (lt : A -> A -> bool).

(** [x] goes in front of the first element that is not smaller than it,
    so equal elements keep the order in which they were inserted. *)
Fixpoint insert (x : A) (l : list A) : list A :=
  match l with
  | [] => [x]
  | y :: l' => if lt y x then y :: insert x l' else x :: y :: l'
  end.

(** [list.sort()]: a stable sort that only uses [<]. *)
Fixpoint sort (l : list A) : list A :=
  match l with
  | [] => []
  | x :: l' => insert x (sort l')
  end.
End Sort.

(** [<] on tuples [(str, int)]. *)
Definition key_lt (a b : string * Z) : bool :=
  String.ltb (fst a) (fst b)
  || (String.eqb (fst a) (fst b) && (snd a <? snd b)).

(** [list.sort(key=f)]: the keys of all elements are computed first (the
    first failure is raised and the list is left as it was), then the
    elements are sorted stably by their keys. *)
Definition sort_by_key (f : string -> result (string * Z))
    (l : list string) : result (list string) :=
  (ks <- Res.mapM f l ;;
   Ok (map snd (sort (fun a b => key_lt (fst a) (fst b)) (combine ks l))))%res.

End Py.

(* ================================================================== *)
(** ** Arrays, the file system and the collaborators *)

Inductive np_dtype : Type := uint8 | float32 | float64.

(** A numpy array: its shape, its element type and its elements, each kept
    as the machine word that encodes it, addressed by a multi-index. *)
Record ndarray : Type := {
  shape : list Z;
  dtype : np_dtype;
  item : list Z -> Z
}.

(** What a path names on disk. *)
Inductive node : Type :=
| Directory
| ImageFile (image : ndarray)
| OtherFile.

(** The file system as the module sees it: what each path names, what
    [glob] returns for a pattern (in the order the operating system lists
    the entries), and whether the operating system lets the file at a path
    be removed (it refuses in a directory without write permission). *)
Record FileSystem : Type := {
  node_at : string -> option node;
  glob_of : string -> list string;
  can_remove : string -> bool
}.

(** Calls that leave the module, in the order they are made. *)
Inductive event : Type :=
| EvImread (path : string)
| EvResize (size : Z)
| EvRemove (path : string).

Record World : Type := {
  fs : FileSystem;
  trace : list event
}.

(** The functions imported from [..util.image] and the numpy operations on
    arrays; they are not part of this module. *)
Class Collaborators : Type := {
  resize : ndarray -> Z -> ndarray;
  rgb_to_lab : ndarray -> ndarray;
  astype : ndarray -> np_dtype -> ndarray;
  moveaxis : ndarray -> Z -> Z -> ndarray
}.

(** Effectful code: a world in, a result and a world out.  An exception
    keeps the effects that happened before it was raised. *)
Definition M (A : Type) : Type := World -> result A * World.

Definition ret {A} (a : A) : M A := fun w => (Ok a, w).

Definition raise {A} (e : exn) : M A := fun w => (Raise e, w).

Definition bind {A B} (m : M A) (k : A -> M B) : M B :=
  fun w =>
    match m w with
    | (Ok a, w') => k a w'
    | (Raise e, w') => (Raise e, w')
    end.

Definition lift {A} (r : result A) : M A := fun w => (r, w).

Declare Scope io_scope.
Delimit Scope io_scope with io.
Notation "x <- m ;; k" := (bind m (fun x => k))
  (at level 61, m at next level, right associativity) : io_scope.
Notation "m ;;; k" := (bind m (fun _ => k))
  (at level 61, right associativity) : io_scope.

Fixpoint mapM {A B} (f : A -> M B) (l : list A) : M (list B) :=
  match l with
  | [] => ret []
  | x :: l' =>
      (y <- f x ;; ys <- mapM f l' ;; ret (y :: ys))%io
  end.

Definition log (e : event) (w : World) : World :=
  {| fs := fs w; trace := trace w ++ [e] |}.

Definition is_directory (f : FileSystem) (path : string) : bool :=
  match node_at f path with
  | Some Directory => true
  | _ => false
  end.

(** [os.path.isdir]. *)
Definition isdir (path : string) : M bool :=
  fun w => (Ok (is_directory (fs w) path), w).

(** [glob.glob]. *)
Definition glob (pattern : string) : M (list string) :=
  fun w => (Ok (glob_of (fs w) pattern), w).

(** [skimage.io.imread]: the decoded array of an image file, an error for
    anything else. *)
Definition imread (path : string) : M ndarray :=
  fun w =>
    match node_at (fs w) path with
    | Some (ImageFile a) => (Ok a, log (EvImread path) w)
    | _ => (Raise (ExternalError path), log (EvImread path) w)
    end.

Definition unlink (path : string) (f : FileSystem) : FileSystem :=
  {| node_at := fun p => if String.eqb p path then None else node_at f p;
     glob_of := fun pat =>
       filter (fun p => negb (String.eqb p path)) (glob_of f pat);
     can_remove := can_remove f |}.

(** [os.remove]: deletes a file when the operating system permits it;
    fails, leaving the disk as it was, when it does not, on a directory
    and on a missing path. *)
Definition remove (path : string) : M unit :=
  fun w =>
    match node_at (fs w) path with
    | Some (ImageFile _) | Some OtherFile =>
        if can_remove (fs w) path then
          (Ok tt, {| fs := unlink path (fs w);
                     trace := trace w ++ [EvRemove path] |})
        else (Raise (ExternalError path), log (EvRemove path) w)
    | _ => (Raise (ExternalError path), log (EvRemove path) w)
    end.

(** A call of the [resize] collaborator. *)
Definition call_resize `{Collaborators} (image : ndarray) (size : Z)
    : M ndarray :=
  fun w => (Ok (resize image size), log (EvResize size) w).

(** Reading a name that is bound to an array in the given scope. *)
Fixpoint load_name (scope : list (string * ndarray)) (name : string)
    : result ndarray :=
  match scope with
  | [] => Raise (NameError name)
  | (n, v) :: scope' =>
      if String.eqb n name then Ok v else load_name scope' name
  end.

(* ================================================================== *)
(** ** The class [TinyImageNet] *)

Definition DATASET_TRAIN : string := "train".
Definition DATASET_VAL : string := "val".
Definition DATASET_TEST : string := "test".

Definition IMAGE_SIZE_ACTUAL : Z := 64.
Definition IMAGE_DTYPE : np_dtype := float32.

Definition CLEAN_ASSUME : string := "assume".
Definition CLEAN_SKIP : string := "skip".
Definition CLEAN_PURGE : string := "purge".

(** The attributes of an instance. *)
Record TinyImageNet : Type := {
  _root : string;
  _dataset : string;
  _image_size : Z;
  image_dtype : np_dtype;
  limit : option Z;
  _indices : Py.dict (list string)
}.

(** The instance before [__init__] has assigned anything. *)
Definition new_instance : TinyImageNet :=
  {| _root := ""; _dataset := ""; _image_size := 0;
     image_dtype := IMAGE_DTYPE; limit := None; _indices := [] |}.

Definition with_root (self : TinyImageNet) (v : string) : TinyImageNet :=
  {| _root := v; _dataset := _dataset self;
     _image_size := _image_size self; image_dtype := image_dtype self;
     limit := limit self; _indices := _indices self |}.

Definition with_dataset (self : TinyImageNet) (v : string) : TinyImageNet :=
  {| _root := _root self; _dataset := v;
     _image_size := _image_size self; image_dtype := image_dtype self;
     limit := limit self; _indices := _indices self |}.

Definition with_image_size (self : TinyImageNet) (v : Z) : TinyImageNet :=
  {| _root := _root self; _dataset := _dataset self;
     _image_size := v; image_dtype := image_dtype self;
     limit := limit self; _indices := _indices self |}.

Definition with_image_dtype (self : TinyImageNet) (v : np_dtype)
    : TinyImageNet :=
  {| _root := _root self; _dataset := _dataset self;
     _image_size := _image_size self; image_dtype := v;
     limit := limit self; _indices := _indices self |}.

Definition with_limit (self : TinyImageNet) (v : option Z) : TinyImageNet :=
  {| _root := _root self; _dataset := _dataset self;
     _image_size := _image_size self; image_dtype := image_dtype self;
     limit := v; _indices := _indices self |}.

Definition with_indices (self : TinyImageNet) (v : Py.dict (list string))
    : TinyImageNet :=
  {| _root := _root self; _dataset := _dataset self;
     _image_size := _image_size self; image_dtype := image_dtype self;
     limit := limit self; _indices := v |}.

(** What [__getitem__] is called with: an [int] or a [slice]. *)
Inductive index : Type :=
| Position (i : Z)
| Range (s : Py.slice).

(** What [__getitem__] returns: one pair or a list of pairs. *)
Inductive retrieved : Type :=
| One (x : ndarray * string)
| Many (l : list (ndarray * string)).

(** [_is_rgb]: the second test is only evaluated for a shape of length 3,
    where the entry at position 2 exists. *)
Definition _is_rgb (image : ndarray) : bool :=
  (List.length (shape image) =? 3)%nat
  && match nth_error (shape image) 2 with
     | Some c => c =? 3
     | None => false
     end.

(** [_has_right_size]: [shape[0] == shape[1] == IMAGE_SIZE_ACTUAL]. *)
Definition _has_right_size (image : ndarray) : result bool :=
  (s0 <- Py.list_getitem (shape image) 0 ;;
   s1 <- Py.list_getitem (shape image) 1 ;;
   Ok ((s0 =? s1) && (s1 =? IMAGE_SIZE_ACTUAL)))%res.

(** The key function [parse_num] local to [_listdir]. *)
Definition parse_num (f : string) : result (string * Z) :=
  let base := Py.rsplit_dot_head f in
  match Py.re_search_digits_eol base with
  | None =>
      Raise (AttributeError "'NoneType' object has no attribute 'start'")
  | Some i =>
      let num := Py.str_drop i base in
      let base := Py.str_take i base in
      (n <- Py.int num ;; Ok (base, n))%res
  end.

(** [_listdir]. *)
Definition _listdir (path : string) (sort_num : bool) : M (list string) :=
  (files <- glob (Py.path_join path "*") ;;
   if sort_num then lift (Py.sort_by_key parse_num files)
   else ret (Py.sort String.ltb files))%io.

Section Methods.
Context `{Collaborators}.

(** [__len__]. *)
Definition __len__ (self : TinyImageNet) : result Z :=
  (index_list <- Py.dict_get (_indices self) (_dataset self) ;;
   let l := Z.of_nat (List.length index_list) in
   match limit self with
   | None => Ok l
   | Some lim => Ok (Z.min lim l)
   end)%res.

(** The setter of the property [root]. *)
Definition root_setter (self : TinyImageNet) (root : string)
    : M TinyImageNet :=
  (d <- isdir root ;;
   if negb d then raise (ValueError ("not a directory: '" ++ root ++ "'"))
   else ret (with_root self root))%io.

(** The setter of the property [dataset]. *)
Definition dataset_setter (self : TinyImageNet) (dataset : string)
    : M TinyImageNet :=
  let valid := [DATASET_TRAIN; DATASET_VAL; DATASET_TEST] in
  if negb (existsb (String.eqb dataset) valid) then
    raise (ValueError
             ("dataset must be either of " ++ String.concat ", " valid))
  else ret (with_dataset self dataset).

(** The setter of the property [image_size]. *)
Definition image_size_setter (self : TinyImageNet) (image_size : Z)
    : M TinyImageNet :=
  if negb (IMAGE_SIZE_ACTUAL <=? image_size) then raise AssertionError
  else ret (with_image_size self image_size).

(** The loop over the class directories in [_build_index]: the files of
    each class are appended to the index of the split. *)
Fixpoint build_train (classes : list string) (index_list : list string)
    : M (list string) :=
  match classes with
  | [] => ret index_list
  | images :: rest =>
      let images_root := Py.path_join images "images" in
      (files <- _listdir images_root true ;;
       build_train rest (index_list ++ files))%io
  end.

(** [_build_index]. *)
Definition _build_index (self : TinyImageNet) (dataset : string)
    : M TinyImageNet :=
  let self := with_indices self (Py.dict_set (_indices self) dataset []) in
  let dataset_path := Py.path_join (_root self) dataset in
  if String.eqb dataset DATASET_TRAIN then
    (classes <- _listdir dataset_path false ;;
     index_list <- build_train classes [] ;;
     ret (with_indices self
            (Py.dict_set (_indices self) dataset index_list)))%io
  else
    let images_root := Py.path_join dataset_path "images" in
    (index_list <- _listdir images_root true ;;
     ret (with_indices self
            (Py.dict_set (_indices self) dataset index_list)))%io.

(** [_build_indices]. *)
Definition _build_indices (self : TinyImageNet) : M TinyImageNet :=
  let self := with_indices self [] in
  (self <- _build_index self DATASET_TRAIN ;;
   self <- _build_index self DATASET_VAL ;;
   _build_index self DATASET_TEST)%io.

(** The inner loop of [_filter_non_rgb] over the paths of one index. *)
Fixpoint filter_index (purge : bool) (index_list : list string)
    (index_rgb_only : list string) : M (list string) :=
  match index_list with
  | [] => ret index_rgb_only
  | path :: rest =>
      (image <- imread path ;;
       if _is_rgb image then
         filter_index purge rest (index_rgb_only ++ [path])
       else if purge then
         (remove path ;;; filter_index purge rest index_rgb_only)
       else filter_index purge rest index_rgb_only)%io
  end.

(** The outer loop of [_filter_non_rgb] over the items of [_indices].
    Assigning to a key that is already present keeps the order of the
    keys, and every key is assigned after its own index has been read, so
    the items seen by the loop are those of the dictionary at its start. *)
Fixpoint filter_items (purge : bool) (items : list (string * list string))
    (self : TinyImageNet) : M TinyImageNet :=
  match items with
  | [] => ret self
  | (dataset, index_list) :: rest =>
      (index_rgb_only <- filter_index purge index_list [] ;;
       filter_items purge rest
         (with_indices self
            (Py.dict_set (_indices self) dataset index_rgb_only)))%io
  end.

(** [_filter_non_rgb]. *)
Definition _filter_non_rgb (self : TinyImageNet) (purge : bool)
    : M TinyImageNet :=
  filter_items purge (_indices self) self.

(** [_clean]. *)
Definition _clean (self : TinyImageNet) (clean : string) : M TinyImageNet :=
  if String.eqb clean CLEAN_SKIP then _filter_non_rgb self false
  else if String.eqb clean CLEAN_PURGE then _filter_non_rgb self true
  else if negb (String.eqb clean CLEAN_ASSUME) then
    raise (ValueError "invalid cleaning procedure")
  else ret self.

(** [__init__]; nothing in its body reads [transform]. *)
Definition __init__ {T : Type} (root : string) (dataset : string)
    (image_size : Z) (image_dtype : np_dtype) (limit : option Z)
    (clean : string) (transform : T) : M TinyImageNet :=
  (self <- root_setter new_instance root ;;
   self <- dataset_setter self dataset ;;
   self <- image_size_setter self image_size ;;
   let self := with_image_dtype self image_dtype in
   let self := with_limit self limit in
   self <- _build_indices self ;;
   _clean self clean)%io.

(** [_process_image].  Its parameter is [image_rgb]; lines 151 and 152
    read the names [image] and [imagelab], which are bound neither in the
    function nor in the module nor among the built-ins. *)
Definition _process_image (self : TinyImageNet) (image_rgb : ndarray)
    : result ndarray :=
  let scope := [("image_rgb", image_rgb)] in
  (image <- load_name scope "image" ;;
   let image_lab := rgb_to_lab image in
   let scope := ("image_lab", image_lab) :: scope in
   imagelab <- load_name scope "imagelab" ;;
   let image_lab := astype imagelab (image_dtype self) in
   Ok (moveaxis image_lab (-1) 0))%res.

(** [_getitem]. *)
Definition _getitem (self : TinyImageNet) (i : Z) : M (ndarray * string) :=
  (index_list <- lift (Py.dict_get (_indices self) (_dataset self)) ;;
   image_path <- lift (Py.list_getitem index_list i) ;;
   image_rgb <- imread image_path ;;
   ok <- lift (if _is_rgb image_rgb then _has_right_size image_rgb
               else Ok false) ;;
   if negb ok then raise AssertionError
   else
     image_rgb <-
       (if negb (_image_size self =? IMAGE_SIZE_ACTUAL)
        then call_resize image_rgb IMAGE_SIZE_ACTUAL
        else ret image_rgb) ;;
     image_lab <- lift (_process_image self image_rgb) ;;
     ret (image_lab, image_path))%io.

(** The positions that line 45 of [__getitem__] resolves a slice to: the
    [range] of the triple [index.indices(len(self._indices[self.dataset]))]. *)
Definition slice_positions (self : TinyImageNet) (s : Py.slice)
    : result (list Z) :=
  (index_list <- Py.dict_get (_indices self) (_dataset self) ;;
   t <- Py.slice_indices s (Z.of_nat (List.length index_list)) ;;
   let '(start, stop, step) := t in
   Ok (Py.range start stop step))%res.

(** [__getitem__]. *)
Definition __getitem__ (self : TinyImageNet) (i : index) : M retrieved :=
  match i with
  | Range s =>
      (r <- lift (slice_positions self s) ;;
       l <- mapM (_getitem self) r ;;
       ret (Many l))%io
  | Position k =>
      (x <- _getitem self k ;; ret (One x))%io
  end.

End Methods.

(* ================================================================== *)
(** ** The ordering of the spec, to compare [_listdir] with

    A numbered file name is a prefix that does not end in a digit, a
    non-empty run of decimal digits, and an extension without a dot; a name
    without extension has no dot at all. *)

Record numbered_name : Type := {
  name_prefix : string;
  name_digits : string;
  name_ext : option string
}.

Fixpoint all_digits (s : string) : bool :=
  match s with
  | EmptyString => true
  | String c s' => Py.is_digit c && all_digits s'
  end.

Fixpoint ends_with_digit (s : string) : bool :=
  match s with
  | EmptyString => false
  | String c EmptyString => Py.is_digit c
  | String _ s' => ends_with_digit s'
  end.

(** The integer a run of decimal digits denotes. *)
Fixpoint decimal (s : string) (acc : Z) : Z :=
  match s with
  | EmptyString => acc
  | String c s' => decimal s' (10 * acc + Py.digit_value c)
  end.

Definition well_formed_name (n : numbered_name) : Prop :=
  name_digits n <> EmptyString
  /\ all_digits (name_digits n) = true
  /\ ends_with_digit (name_prefix n) = false
  /\ match name_ext n with
     | Some ext => Py.rfind_dot ext = None
     | None => Py.rfind_dot (name_prefix n) = None
     end.

Definition file_name (n : numbered_name) : string :=
  name_prefix n ++ name_digits n
  ++ match name_ext n with
     | Some ext => "." ++ ext
     | None => ""
     end.

(** The key of the spec: the raw prefix, then the value of the digits. *)
Definition spec_key (n : numbered_name) : string * Z :=
  (name_prefix n, decimal (name_digits n) 0).

(** Prefix first, number second. *)
Definition spec_key_le (a b : numbered_name) : Prop :=
  (name_prefix a ?= name_prefix b)%string = Lt
  \/ (name_prefix a = name_prefix b
      /\ decimal (name_digits a) 0 <= decimal (name_digits b) 0).

(* ================================================================== *)
(** ** Vocabulary of the statements *)

(** The file at [path] decodes to some array. *)
Definition decodable (f : FileSystem) (path : string) : Prop :=
  exists a, node_at f path = Some (ImageFile a).

(** The file at [path] decodes to an array that passes [_is_rgb]. *)
Definition decodes_to_rgb (f : FileSystem) (path : string) : bool :=
  match node_at f path with
  | Some (ImageFile a) => _is_rgb a
  | _ => false
  end.

(** [path] is one of [paths] and its array fails [_is_rgb]. *)
Definition rejected (f : FileSystem) (paths : list string) (path : string)
    : bool :=
  existsb (String.eqb path) paths && negb (decodes_to_rgb f path).

(** [f'] is [f] without the rejected files of [paths]. *)
Definition purged (f : FileSystem) (paths : list string) (f' : FileSystem)
    : Prop :=
  forall p, node_at f' p = if rejected f paths p then None else node_at f p.

(** The disk after a cleaning pass over [paths]: without the rejected files
    when purging, as it was otherwise. *)
Definition cleaned_disk (purge : bool) (f : FileSystem)
    (paths : list string) (f' : FileSystem) : Prop :=
  if purge then purged f paths f' else f' = f.

(** The operating system lets every rejected file of [paths] be removed. *)
Definition deletable_rejects (f : FileSystem) (paths : list string) : Prop :=
  forall p, In p paths -> decodes_to_rgb f p = false -> can_remove f p = true.

(** Two instances with the same attributes, their indices apart. *)
Definition same_attributes (a b : TinyImageNet) : Prop :=
  _root a = _root b /\ _dataset a = _dataset b
  /\ _image_size a = _image_size b /\ image_dtype a = image_dtype b
  /\ limit a = limit b.

(** Every index with the entries that fail [_is_rgb] taken out. *)
Definition filtered_indices (f : FileSystem) (d : Py.dict (list string))
    : Py.dict (list string) :=
  map (fun kv => (fst kv, filter (decodes_to_rgb f) (snd kv))) d.

Definition all_paths (d : Py.dict (list string)) : list string :=
  concat (map snd d).

(** Two instances that differ at most in their indices. *)
Definition same_config (a b : TinyImageNet) : Prop :=
  with_indices a [] = with_indices b [].

(** What [m] does from the world [w]: its exception satisfies [P], or its
    value and the world it leaves satisfy [Q]. *)
Definition outcome {A} (P : exn -> Prop) (Q : A -> World -> Prop)
    (m : M A) (w : World) : Prop :=
  match m w with
  | (Ok a, w') => Q a w'
  | (Raise e, _) => P e
  end.

(** The errors of the data on disk: a name without a number, a file that
    cannot be read or deleted. *)
Definition data_error (e : exn) : Prop :=
  (exists msg, e = AttributeError msg)
  \/ (exists path, e = ExternalError path).

(** The instance once the three setters and the two plain assignments of
    [__init__] have run. *)
Definition configured (root dataset : string) (image_size : Z)
    (image_dtype : np_dtype) (limit : option Z) : TinyImageNet :=
  {| _root := root; _dataset := dataset; _image_size := image_size;
     image_dtype := image_dtype; limit := limit; _indices := [] |}.

Definition valid_datasets : list string :=
  [DATASET_TRAIN; DATASET_VAL; DATASET_TEST].

Definition valid_cleanings : list string :=
  [CLEAN_ASSUME; CLEAN_SKIP; CLEAN_PURGE].

(** The errors that [__init__] raises for a bad argument. *)
Definition configuration_error (e : exn) : Prop :=
  e = AssertionError \/ exists msg, e = ValueError msg.

(** The slice resolution the spec describes: the triple is computed against
    the bounded length that [__len__] returns. *)
Definition spec_slice_positions (self : TinyImageNet) (s : Py.slice)
    : result (list Z) :=
  (n <- __len__ self ;;
   t <- Py.slice_indices s n ;;
   let '(start, stop, step) := t in
   Ok (Py.range start stop step))%res.

(* ================================================================== *)
(** ** A small dataset on disk, for the concrete instances *)

Module Example.

Definition image_of_shape (sh : list Z) : ndarray :=
  {| shape := sh; dtype := uint8; item := fun _ => 0 |}.

Definition rgb64 : ndarray := image_of_shape [64; 64; 3].
Definition gray64 : ndarray := image_of_shape [64; 64].
Definition rgba64 : ndarray := image_of_shape [64; 64; 4].
Definition rgb128 : ndarray := image_of_shape [128; 128; 3].

(** Collaborators that only move shapes and element types around. *)
Definition ops : Collaborators :=
  {| resize := fun a n =>
       {| shape := [n; n; nth 2 (shape a) 0]; dtype := dtype a;
          item := item a |};
     rgb_to_lab := fun a =>
       {| shape := shape a; dtype := float64; item := item a |};
     astype := fun a t =>
       {| shape := shape a; dtype := t; item := item a |};
     moveaxis := fun a _ _ =>
       {| shape := removelast (shape a) ++ [last (shape a) 0];
          dtype := dtype a; item := item a |} |}.

Definition lookup {V} (table : list (string * V)) (k : string) : option V :=
  match Py.dict_get table k with
  | Ok v => Some v
  | Raise _ => None
  end.

Definition files : list (string * node) :=
  [ ("/d", Directory);
    ("/d/train", Directory);
    ("/d/train/n01", Directory);
    ("/d/train/n02", Directory);
    ("/d/train/n01/images", Directory);
    ("/d/train/n02/images", Directory);
    ("/d/train/n01/images/n01_2.JPEG", ImageFile gray64);
    ("/d/train/n01/images/n01_10.JPEG", ImageFile rgb64);
    ("/d/train/n02/images/n02_0.JPEG", ImageFile rgb64);
    ("/d/val", Directory);
    ("/d/val/images", Directory);
    ("/d/val/images/val_0.JPEG", ImageFile rgb64);
    ("/d/val/images/val_1.JPEG", ImageFile rgb64);
    ("/d/val/images/val_2.JPEG", ImageFile rgb64);
    ("/d/val/images/val_3.JPEG", ImageFile rgb64);
    ("/d/val/images/val_4.JPEG", ImageFile rgb64);
    ("/d/val/images/val_5.JPEG", ImageFile rgb64);
    ("/d/test", Directory);
    ("/d/test/images", Directory);
    ("/d/test/images/test_0.JPEG", ImageFile rgb128);
    ("/d/test/images/test_1.JPEG", ImageFile rgba64);
    ("/d/plain", Directory);
    ("/d/plain/img_2.png", ImageFile rgb64);
    ("/d/plain/img_10.png", ImageFile rgb64);
    ("/d/plain/img_1.png", ImageFile rgb64) ].

Definition listings : list (string * list string) :=
  [ ("/d/train/*", ["/d/train/n02"; "/d/train/n01"]);
    ("/d/train/n01/images/*",
     ["/d/train/n01/images/n01_10.JPEG"; "/d/train/n01/images/n01_2.JPEG"]);
    ("/d/train/n02/images/*", ["/d/train/n02/images/n02_0.JPEG"]);
    ("/d/val/images/*",
     ["/d/val/images/val_4.JPEG"; "/d/val/images/val_1.JPEG";
      "/d/val/images/val_5.JPEG"; "/d/val/images/val_0.JPEG";
      "/d/val/images/val_3.JPEG"; "/d/val/images/val_2.JPEG"]);
    ("/d/test/images/*",
     ["/d/test/images/test_1.JPEG"; "/d/test/images/test_0.JPEG"]);
    ("/d/plain/*",
     ["/d/plain/img_2.png"; "/d/plain/img_10.png"; "/d/plain/img_1.png"]) ].

Definition disk : FileSystem :=
  {| node_at := lookup files;
     glob_of := fun pattern =>
       match lookup listings pattern with
       | Some l => l
       | None => []
       end;
     can_remove := fun _ => true |}.

Definition world : World := {| fs := disk; trace := [] |}.

(** The indices that [_build_indices] finds on [disk]. *)
Definition indices : Py.dict (list string) :=
  [ ("train",
     ["/d/train/n01/images/n01_2.JPEG"; "/d/train/n01/images/n01_10.JPEG";
      "/d/train/n02/images/n02_0.JPEG"]);
    ("val",
     ["/d/val/images/val_0.JPEG"; "/d/val/images/val_1.JPEG";
      "/d/val/images/val_2.JPEG"; "/d/val/images/val_3.JPEG";
      "/d/val/images/val_4.JPEG"; "/d/val/images/val_5.JPEG"]);
    ("test", ["/d/test/images/test_0.JPEG"; "/d/test/images/test_1.JPEG"]) ].

(** An instance on [disk] with the given split, size and limit. *)
Definition handle (dataset : string) (image_size : Z) (lim : option Z)
    : TinyImageNet :=
  {| _root := "/d"; _dataset := dataset; _image_size := image_size;
     image_dtype := float32; limit := lim; _indices := indices |}.

Definition plain_names : list numbered_name :=
  [ {| name_prefix := "/d/plain/img_"; name_digits := "2";
       name_ext := Some "png" |};
    {| name_prefix := "/d/plain/img_"; name_digits := "10";
       name_ext := Some "png" |};
    {| name_prefix := "/d/plain/img_"; name_digits := "1";
       name_ext := Some "png" |} ].

End Example.

(* ================================================================== *)
(** ** Vocabulary of the further statements *)

(** The stem ends in a run of decimal digits, up to the one newline that
    [$] allows after it. *)
Definition ends_in_number (stem : string) : Prop :=
  exists p d,
    d <> EmptyString /\ all_digits d = true
    /\ (stem = p ++ d \/ stem = p ++ d ++ String Py.newline EmptyString).

(** What [parse_num] raises: [re.search] gave [None]. *)
Definition no_match_error : exn :=
  AttributeError "'NoneType' object has no attribute 'start'".

(** The name has the key [k]. *)
Definition has_key (k : string * Z) (n : numbered_name) : bool :=
  String.eqb (fst (spec_key n)) (fst k) && (snd (spec_key n) =? snd k).

(** [f'] is [f] but for some files of [paths] that decode to an array
    failing [_is_rgb], which are gone. *)
Definition removed_within (f : FileSystem) (paths : list string)
    (f' : FileSystem) : Prop :=
  forall p,
    node_at f' p = node_at f p
    \/ (node_at f' p = None /\ In p paths
        /\ exists a, node_at f p = Some (ImageFile a) /\ _is_rgb a = false).

(** The calls a cleaning pass makes for [paths]: every file is decoded, and
    when purging a rejected file is removed right after. *)
Definition clean_events (purge : bool) (f : FileSystem)
    (paths : list string) : list event :=
  flat_map
    (fun p =>
       EvImread p
       :: (if purge && negb (decodes_to_rgb f p) then [EvRemove p] else []))
    paths.

(** A purge stops at [path]: it does not decode, or it is rejected and
    the operating system does not let it be removed. *)
Definition stops_purge (f : FileSystem) (path : string) : Prop :=
  (forall a, node_at f path <> Some (ImageFile a))
  \/ (decodes_to_rgb f path = false /\ can_remove f path = false).

(** The example disk with one file that cannot be removed. *)
Definition locked_world : World :=
  {| fs := {| node_at := node_at Example.disk;
              glob_of := glob_of Example.disk;
              can_remove := fun p =>
                negb (String.eqb p "/d/test/images/test_1.JPEG") |};
     trace := [] |}.

(** An instance whose train index holds a rejected file, then the
    rejected file that cannot be removed, then a file never reached. *)
Definition locked_handle : TinyImageNet :=
  {| _root := "/d"; _dataset := "val"; _image_size := 64;
     image_dtype := float32; limit := None;
     _indices :=
       [ ("train",
          ["/d/train/n01/images/n01_2.JPEG"; "/d/test/images/test_1.JPEG";
           "/d/train/n01/images/n01_10.JPEG"]);
         ("val", []);
         ("test", []) ] |}.

(** A world that only lists [names] for every pattern. *)
Definition listing_world (names : list string) : World :=
  {| fs := {| node_at := fun _ => None; glob_of := fun _ => names;
              can_remove := fun _ => true |};
     trace := [] |}.

(** Two names with the same key, listed around a smaller one. *)
Definition tied_names : list numbered_name :=
  [ {| name_prefix := "img_"; name_digits := "01";
       name_ext := Some "png" |};
    {| name_prefix := "img_"; name_digits := "0";
       name_ext := Some "png" |};
    {| name_prefix := "img_"; name_digits := "1";
       name_ext := Some "png" |} ].

(** An instance whose train index holds a rejected file, then a path that
    does not decode, then a file that is never reached. *)
Definition broken_handle : TinyImageNet :=
  {| _root := "/d"; _dataset := "val"; _image_size := 64;
     image_dtype := float32; limit := None;
     _indices :=
       [ ("train",
          ["/d/train/n01/images/n01_2.JPEG"; "/d/train/n01/images";
           "/d/test/images/test_1.JPEG"]);
         ("val", []);
         ("test", []) ] |}.

(** [m] only reads listings: it leaves every world as it was, and fails
    with nothing but the error of [parse_num]. *)
Definition listing_only {A} (m : M A) : Prop :=
  forall w,
    snd (m w) = w /\ forall e, fst (m w) = Raise e -> e = no_match_error.

(* ================================================================== *)
(** ** Evaluations *)

Example range_up : Py.range 2 5 1 = [2; 3; 4].
Proof. reflexivity. Qed.

Example range_down : Py.range 5 (-1) (-2) = [5; 3; 1].
Proof. reflexivity. Qed.

Example range_empty : Py.range 4 4 1 = [].
Proof. reflexivity. Qed.

Example indices_clamped :
  Py.slice_indices (Py.Slice (Some 2) (Some 5) None) 4 = Ok (2, 4, 1).
Proof. reflexivity. Qed.

Example indices_reversed :
  Py.slice_indices (Py.Slice None None (Some (-1))) 5 = Ok (4, -1, -1).
Proof. reflexivity. Qed.

Example indices_from_end :
  Py.slice_indices (Py.Slice (Some (-2)) None None) 5 = Ok (3, 5, 1).
Proof. reflexivity. Qed.

Example getitem_last : Py.list_getitem ["a"; "b"; "c"] (-1) = Ok "c".
Proof. reflexivity. Qed.

Example getitem_out_of_range :
  Py.list_getitem ["a"; "b"; "c"] 3 = Raise IndexError.
Proof. reflexivity. Qed.

Example int_leading_zeros : Py.int "007" = Ok 7.
Proof. reflexivity. Qed.

Example join_plain : Py.path_join "/d" "val" = "/d/val".
Proof. reflexivity. Qed.

Example join_after_slash : Py.path_join "/d/" "val" = "/d/val".
Proof. reflexivity. Qed.

Example parse_num_numbered :
  parse_num "/d/val/images/val_10.JPEG" = Ok ("/d/val/images/val_", 10).
Proof. reflexivity. Qed.

Example parse_num_without_number :
  parse_num "/d/val/images/readme.txt"
  = Raise (AttributeError "'NoneType' object has no attribute 'start'").
Proof. reflexivity. Qed.

Example parse_num_trailing_newline :
  parse_num ("img_12" ++ String Py.newline "") = Ok ("img_", 12).
Proof. reflexivity. Qed.

Example listdir_plain_order :
  Py.sort String.ltb ["/d/train/n02"; "/d/train/n01"]
  = ["/d/train/n01"; "/d/train/n02"].
Proof. reflexivity. Qed.

Example build_indices_example :
  _build_indices (Example.handle "val" 64 None) Example.world
  = (Ok (Example.handle "val" 64 None), Example.world).
Proof. reflexivity. Qed.

(* ================================================================== *)
(** ** Facts about the built-ins *)

Lemma list_getitem_nat {A} (l : list A) (k : nat) (x : A) :
  nth_error l k = Some x -> Py.list_getitem l (Z.of_nat k) = Ok x.
Proof.
  intros E. unfold Py.list_getitem.
  assert (Hk : (k < List.length l)%nat)
    by (apply nth_error_Some; congruence).
  destruct (Z.ltb_spec (Z.of_nat k) 0) as [Hn|_]; [lia|].
  destruct (Z.leb_spec 0 (Z.of_nat k)) as [_|Hn]; [|lia].
  destruct (Z.ltb_spec (Z.of_nat k) (Z.of_nat (List.length l))) as [_|Hn];
    [|lia].
  simpl. now rewrite Nat2Z.id, E.
Qed.

Lemma str_app_assoc (a b c : string) :
  ((a ++ b) ++ c)%string = (a ++ b ++ c)%string.
Proof. induction a as [|x a IH]; [reflexivity | cbn; now f_equal]. Qed.

Lemma str_take_app s t : Py.str_take (String.length s) (s ++ t) = s.
Proof. induction s as [|c s IH]; simpl; [now destruct t | now rewrite IH]. Qed.

Lemma str_drop_app s t : Py.str_drop (String.length s) (s ++ t) = t.
Proof. induction s as [|c s IH]; simpl; auto. Qed.

Lemma rfind_dot_app s ext :
  Py.rfind_dot ext = None ->
  Py.rfind_dot (s ++ "." ++ ext) = Some (String.length s).
Proof.
  intros E. induction s as [|c s IH]; simpl.
  - now rewrite E.
  - simpl in IH. now rewrite IH.
Qed.

Lemma rsplit_dot_head_app s ext :
  Py.rfind_dot ext = None -> Py.rsplit_dot_head (s ++ "." ++ ext) = s.
Proof.
  intros E. unfold Py.rsplit_dot_head.
  rewrite (rfind_dot_app s ext E). apply str_take_app.
Qed.

Lemma all_digits_digits_eol d : all_digits d = true -> Py.digits_eol d = true.
Proof.
  induction d as [|c d IH]; simpl; auto.
  intros E. apply andb_prop in E as [E1 E2]. rewrite E1. auto.
Qed.

Lemma all_digits_match d :
  d <> EmptyString -> all_digits d = true -> Py.match_digits_eol d = true.
Proof.
  destruct d as [|c d]; [congruence|]. simpl. intros _ E.
  apply andb_prop in E as [E1 E2]. rewrite E1. simpl.
  now apply all_digits_digits_eol.
Qed.

Lemma app_not_empty p d : d <> EmptyString -> (p ++ d)%string <> EmptyString.
Proof. destruct p; simpl; auto; discriminate. Qed.

Lemma digits_eol_through_prefix p d :
  p <> EmptyString -> ends_with_digit p = false -> d <> EmptyString ->
  Py.digits_eol (p ++ d) = false.
Proof.
  intros Hp He Hd. induction p as [|c p IH]; [congruence|].
  simpl. destruct (Py.is_digit c) eqn:Ec.
  - destruct p as [|c' p].
    + simpl in He. congruence.
    + apply IH; [discriminate | exact He].
  - destruct (String.eqb_spec (p ++ d) EmptyString) as [E|E].
    + now apply app_not_empty in E.
    + apply andb_false_r.
Qed.

Lemma re_search_prefix_digits p d :
  ends_with_digit p = false -> d <> EmptyString -> all_digits d = true ->
  Py.re_search_digits_eol (p ++ d) = Some (String.length p).
Proof.
  intros He Hd Ha. induction p as [|c p IH].
  - simpl. destruct d as [|c d]; [congruence|].
    change (Py.re_search_digits_eol (String c d))
      with (if Py.match_digits_eol (String c d) then Some O
            else option_map S (Py.re_search_digits_eol d)).
    now rewrite all_digits_match.
  - change (Py.re_search_digits_eol (String c p ++ d))
      with (if Py.match_digits_eol (String c (p ++ d)) then Some O
            else option_map S (Py.re_search_digits_eol (p ++ d))).
    assert (Hm : Py.match_digits_eol (String c (p ++ d)) = false).
    { simpl. destruct p as [|c' p].
      - simpl in He. rewrite He. reflexivity.
      - rewrite (digits_eol_through_prefix (String c' p) d);
          [apply andb_false_r | discriminate | exact He | exact Hd]. }
    rewrite Hm. rewrite IH.
    + reflexivity.
    + destruct p as [|c' p]; [reflexivity | exact He].
Qed.

Lemma digit_not_space c : Py.is_digit c = true -> Py.is_space c = false.
Proof.
  unfold Py.is_digit, Py.is_space. intros E.
  apply andb_prop in E as [E1 E2].
  apply Nat.leb_le in E1. apply Nat.leb_le in E2.
  apply orb_false_iff. split.
  - apply andb_false_iff. right. apply Nat.leb_gt. lia.
  - apply Nat.eqb_neq. lia.
Qed.

Lemma int_digits_all d acc :
  d <> EmptyString -> all_digits d = true ->
  forall seen, Py.int_digits d acc seen = Some (decimal d acc).
Proof.
  revert acc. induction d as [|c d IH]; [congruence|].
  intros acc _ Ha seen. simpl in Ha. apply andb_prop in Ha as [E1 E2].
  simpl. rewrite E1. destruct d as [|c' d].
  - reflexivity.
  - apply IH; [discriminate | exact E2].
Qed.

Lemma int_of_digits d :
  d <> EmptyString -> all_digits d = true -> Py.int d = Ok (decimal d 0).
Proof.
  intros Hd Ha. destruct d as [|c d]; [congruence|].
  assert (Ec : Py.is_digit c = true)
    by (simpl in Ha; now apply andb_prop in Ha as [? _]).
  unfold Py.int.
  assert (El : Py.lstrip (String c d) = String c d)
    by (simpl; now rewrite (digit_not_space c Ec)).
  rewrite El.
  assert (Ei : Py.int_digits (String c d) 0 false
               = Some (decimal (String c d) 0))
    by (apply int_digits_all; [discriminate | exact Ha]).
  destruct c as [[] [] [] [] [] [] [] []];
    try discriminate Ec; now rewrite Ei.
Qed.

Lemma digit_not_dot c : Py.is_digit c = true -> Ascii.eqb c "." = false.
Proof.
  intros E. destruct (Ascii.eqb_spec c ".") as [->|]; [discriminate|].
  reflexivity.
Qed.

Lemma rfind_dot_digits d : all_digits d = true -> Py.rfind_dot d = None.
Proof.
  induction d as [|c d IH]; simpl; [reflexivity|].
  intros E. apply andb_prop in E as [E1 E2].
  now rewrite (IH E2), (digit_not_dot c E1).
Qed.

Lemma rfind_dot_app_none a b :
  Py.rfind_dot a = None -> Py.rfind_dot b = None ->
  Py.rfind_dot (a ++ b) = None.
Proof.
  intros Ha Hb. induction a as [|c a IH]; simpl; [exact Hb|].
  simpl in Ha. destruct (Py.rfind_dot a); [discriminate|].
  rewrite IH; [exact Ha | reflexivity].
Qed.

Lemma str_app_empty s : (s ++ "")%string = s.
Proof. induction s as [|c s IH]; simpl; [reflexivity | now rewrite IH]. Qed.

Lemma rsplit_dot_head_name n :
  well_formed_name n ->
  Py.rsplit_dot_head (file_name n)
  = (name_prefix n ++ name_digits n)%string.
Proof.
  intros (Hd & Ha & He & Hx). unfold file_name.
  destruct (name_ext n) as [ext|].
  - rewrite <- str_app_assoc. now apply rsplit_dot_head_app.
  - rewrite str_app_empty. unfold Py.rsplit_dot_head.
    rewrite rfind_dot_app_none;
      [reflexivity | exact Hx | now apply rfind_dot_digits].
Qed.

Lemma parse_num_file_name n :
  well_formed_name n -> parse_num (file_name n) = Ok (spec_key n).
Proof.
  intros Hwf. unfold parse_num. rewrite (rsplit_dot_head_name n Hwf).
  destruct Hwf as (Hd & Ha & He & Hx).
  rewrite (re_search_prefix_digits _ _ He Hd Ha).
  rewrite str_drop_app, str_take_app.
  rewrite (int_of_digits _ Hd Ha). reflexivity.
Qed.

(** *** The stable sort: a permutation that is in order *)

Section SortFacts.
Context {A : Type} (lt : A -> A -> bool) (R : A -> A -> Prop).
Hypothesis lt_true : forall x y, lt x y = true -> R x y.
Hypothesis lt_false : forall x y, lt x y = false -> R y x.
Hypothesis R_trans : forall x y z, R x y -> R y z -> R x z.

Lemma insert_perm x l : Permutation (x :: l) (Py.insert lt x l).
Proof.
  induction l as [|y l IH]; simpl.
  - apply Permutation_refl.
  - destruct (lt y x).
    + eapply perm_trans; [apply perm_swap|].
      now apply perm_skip.
    + apply Permutation_refl.
Qed.

Lemma sort_perm l : Permutation l (Py.sort lt l).
Proof.
  induction l as [|x l IH]; simpl.
  - apply perm_nil.
  - eapply perm_trans; [apply perm_skip, IH | apply insert_perm].
Qed.

Lemma insert_sorted x l :
  StronglySorted R l -> StronglySorted R (Py.insert lt x l).
Proof.
  induction 1 as [|y l Hs IH Hall]; simpl.
  - constructor; constructor.
  - destruct (lt y x) eqn:E.
    + constructor; [exact IH|].
      eapply Permutation_Forall; [apply insert_perm|].
      constructor; [now apply lt_true | exact Hall].
    + constructor; [now constructor|].
      constructor; [now apply lt_false|].
      eapply Forall_impl; [|exact Hall].
      intros z Hz. eapply R_trans; [apply lt_false, E | exact Hz].
Qed.

Lemma sort_sorted l : StronglySorted R (Py.sort lt l).
Proof.
  induction l as [|x l IH]; simpl; [constructor | now apply insert_sorted].
Qed.
End SortFacts.

Lemma insert_map {A B} (g : A -> B) (lt : B -> B -> bool) x l :
  Py.insert lt (g x) (map g l)
  = map g (Py.insert (fun a b => lt (g a) (g b)) x l).
Proof.
  induction l as [|y l IH]; simpl; [reflexivity|].
  destruct (lt (g y) (g x)); simpl; [now rewrite IH | reflexivity].
Qed.

Lemma sort_map {A B} (g : A -> B) (lt : B -> B -> bool) l :
  Py.sort lt (map g l) = map g (Py.sort (fun a b => lt (g a) (g b)) l).
Proof.
  induction l as [|x l IH]; simpl; [reflexivity|].
  rewrite IH. apply insert_map.
Qed.

Lemma ltb_compare s t : String.ltb s t = true <-> (s ?= t)%string = Lt.
Proof. unfold String.ltb. destruct (s ?= t)%string; split; congruence. Qed.

Lemma key_lt_true a b :
  Py.key_lt (spec_key a) (spec_key b) = true -> spec_key_le a b.
Proof.
  unfold Py.key_lt, spec_key_le. simpl. intros E.
  apply orb_prop in E as [E|E].
  - left. now apply ltb_compare.
  - apply andb_prop in E as [E1 E2]. right. split.
    + now apply String.eqb_eq.
    + apply Z.ltb_lt in E2. lia.
Qed.

Lemma key_lt_false a b :
  Py.key_lt (spec_key a) (spec_key b) = false -> spec_key_le b a.
Proof.
  unfold Py.key_lt, spec_key_le. simpl. intros E.
  apply orb_false_iff in E as [E1 E2].
  destruct (name_prefix a ?= name_prefix b)%string eqn:Ec.
  - apply String.compare_eq_iff in Ec. right. split; [congruence|].
    rewrite Ec, String.eqb_refl in E2. simpl in E2.
    apply Z.ltb_ge in E2. exact E2.
  - apply ltb_compare in Ec. congruence.
  - left. rewrite String.compare_antisym, Ec. reflexivity.
Qed.

Lemma spec_key_le_trans a b c :
  spec_key_le a b -> spec_key_le b c -> spec_key_le a c.
Proof.
  unfold spec_key_le. intros [H1|[H1 H1']] [H2|[H2 H2']].
  - left. apply String_as_OT.cmp_lt. apply String_as_OT.cmp_lt in H1, H2.
    eapply String_as_OT.lt_trans; eassumption.
  - left. now rewrite <- H2.
  - left. now rewrite H1.
  - right. split; [congruence | lia].
Qed.

Lemma mapM_parse_num names :
  Forall well_formed_name names ->
  Res.mapM parse_num (map file_name names) = Ok (map spec_key names).
Proof.
  induction 1 as [|n names Hn _ IH]; simpl; [reflexivity|].
  rewrite (parse_num_file_name n Hn). simpl. rewrite IH. reflexivity.
Qed.

Lemma combine_map_map {A B C} (f : A -> B) (g : A -> C) l :
  combine (map f l) (map g l) = map (fun x => (f x, g x)) l.
Proof. induction l as [|x l IH]; simpl; [reflexivity | now rewrite IH]. Qed.

Lemma sort_by_key_names names :
  Forall well_formed_name names ->
  Py.sort_by_key parse_num (map file_name names)
  = Ok (map file_name
          (Py.sort (fun a b => Py.key_lt (spec_key a) (spec_key b)) names)).
Proof.
  intros Hwf. unfold Py.sort_by_key.
  rewrite (mapM_parse_num names Hwf). simpl.
  rewrite combine_map_map.
  rewrite (sort_map (fun n => (spec_key n, file_name n))
             (fun a b => Py.key_lt (fst a) (fst b))).
  simpl. rewrite map_map. reflexivity.
Qed.

(* ================================================================== *)
(** ** Listing a directory in numeric order *)

(** C8.  [_listdir] with [sort_num] sorts the listed names by the key of
    [parse_num]: for names made of a prefix, a trailing run of digits and an
    extension, the result is a rearrangement of the listing that is ordered
    by the raw prefix first and by the integer value of the digits second;
    img_2.png, img_10.png, img_1.png come out as img_1.png, img_2.png,
    img_10.png. *)
Theorem listdir_numeric_order :
  (forall (w : World) (path : string) (names : list numbered_name),
      Forall well_formed_name names ->
      glob_of (fs w) (Py.path_join path "*") = map file_name names ->
      exists sorted,
        _listdir path true w = (Ok (map file_name sorted), w)
        /\ Permutation names sorted
        /\ StronglySorted spec_key_le sorted)
  /\ _listdir "/d/plain" true Example.world
     = (Ok ["/d/plain/img_1.png"; "/d/plain/img_2.png";
            "/d/plain/img_10.png"], Example.world)
  /\ Py.sort_by_key parse_num ["img_2.png"; "img_10.png"; "img_1.png"]
     = Ok ["img_1.png"; "img_2.png"; "img_10.png"].
Proof.
  split; [|split; reflexivity].
  intros w path names Hwf Hglob.
  exists (Py.sort (fun a b => Py.key_lt (spec_key a) (spec_key b)) names).
  split; [|split].
  - unfold _listdir, bind, glob, lift. rewrite Hglob.
    now rewrite (sort_by_key_names names Hwf).
  - apply sort_perm.
  - apply sort_sorted.
    + intros x y. apply key_lt_true.
    + intros x y. apply key_lt_false.
    + apply spec_key_le_trans.
Qed.

Lemma listdir_numeric_order_witness :
  exists sorted,
    _listdir "/d/plain" true Example.world
    = (Ok (map file_name sorted), Example.world)
    /\ Permutation Example.plain_names sorted
    /\ StronglySorted spec_key_le sorted.
Proof.
  apply (proj1 listdir_numeric_order Example.world "/d/plain"
           Example.plain_names).
  - repeat constructor; simpl; congruence.
  - reflexivity.
Defined.

(* ================================================================== *)
(** ** Retrieval of one item *)

Section Retrieval.
Context `{Collaborators}.

Lemma process_image_raises self image :
  _process_image self image = Raise (NameError "image").
Proof. reflexivity. Qed.

Lemma shape_check_true image :
  shape image = [64; 64; 3] ->
  (if _is_rgb image then _has_right_size image else Ok false) = Ok true.
Proof.
  intros E. unfold _is_rgb, _has_right_size. rewrite E. reflexivity.
Qed.

Lemma shape_check_false image :
  shape image <> [64; 64; 3] ->
  (if _is_rgb image then _has_right_size image else Ok false) = Ok false.
Proof.
  intros E. unfold _is_rgb, _has_right_size.
  destruct (shape image) as [|a [|b [|c [|d l]]]]; try reflexivity.
  change (Py.list_getitem [a; b; c] 0)
    with (Py.list_getitem [a; b; c] (Z.of_nat 0)).
  change (Py.list_getitem [a; b; c] 1)
    with (Py.list_getitem [a; b; c] (Z.of_nat 1)).
  rewrite (list_getitem_nat [a; b; c] 0 a eq_refl).
  rewrite (list_getitem_nat [a; b; c] 1 b eq_refl).
  cbn. destruct (Z.eqb_spec c 3) as [->|]; [|reflexivity].
  destruct (Z.eqb_spec a b) as [->|]; [|reflexivity].
  unfold IMAGE_SIZE_ACTUAL.
  destruct (Z.eqb_spec b 64) as [->|]; [congruence | reflexivity].
Qed.

(** No call of [_getitem] returns a pair. *)
Lemma getitem_never_returns self i w :
  exists e, fst (_getitem self i w) = Raise e.
Proof.
  unfold _getitem, bind, lift, imread, call_resize, raise, ret.
  destruct (Py.dict_get (_indices self) (_dataset self)) as [l|e];
    [|now exists e].
  destruct (Py.list_getitem l i) as [path|e]; [|now exists e].
  destruct (node_at (fs w) path) as [[|image|]|];
    try (now exists (ExternalError path)).
  destruct (if _is_rgb image then _has_right_size image else Ok false)
    as [[|]|e]; simpl; [| now exists AssertionError | now exists e].
  destruct (_image_size self =? IMAGE_SIZE_ACTUAL); simpl;
    now exists (NameError "image").
Qed.

(** C1.  For a valid position whose file decodes to a 64x64 RGB array,
    [_getitem] does not return the pair of the converted array and the
    path: [_process_image] reads the unbound name [image] and the call
    ends in a [NameError]. *)
Theorem getitem_valid_item_raises_NameError self i w index_list path image :
  Py.dict_get (_indices self) (_dataset self) = Ok index_list ->
  Py.list_getitem index_list i = Ok path ->
  node_at (fs w) path = Some (ImageFile image) ->
  shape image = [64; 64; 3] ->
  fst (_getitem self i w) = Raise (NameError "image").
Proof.
  intros Hd Hl Hn Hs.
  unfold _getitem, bind, lift, imread, call_resize, raise, ret.
  rewrite Hd, Hl, Hn, (shape_check_true image Hs). simpl.
  now destruct (_image_size self =? IMAGE_SIZE_ACTUAL).
Qed.

(** C2.  With a target size other than 64, [_getitem] on a 64x64 RGB item
    calls the resize collaborator with the native size 64, not with the
    target size, and then fails with the [NameError] of [_process_image]:
    no array of the target size is returned. *)
Theorem getitem_resizes_to_native_size self i w index_list path image :
  _image_size self <> IMAGE_SIZE_ACTUAL ->
  Py.dict_get (_indices self) (_dataset self) = Ok index_list ->
  Py.list_getitem index_list i = Ok path ->
  node_at (fs w) path = Some (ImageFile image) ->
  shape image = [64; 64; 3] ->
  _getitem self i w
  = (Raise (NameError "image"),
     {| fs := fs w;
        trace := trace w ++ [EvImread path; EvResize IMAGE_SIZE_ACTUAL] |}).
Proof.
  intros Hsz Hd Hl Hn Hs.
  unfold _getitem, bind, lift, imread, call_resize, raise, ret.
  rewrite Hd, Hl, Hn, (shape_check_true image Hs). simpl.
  apply Z.eqb_neq in Hsz. rewrite Hsz. simpl.
  unfold log. simpl. now rewrite <- app_assoc.
Qed.

(** C5.  When the decoded array does not have the shape (64, 64, 3),
    [_getitem] raises [AssertionError] right after decoding, whatever the
    target size and the indices are; the check is against the native size
    64, and nothing is resized or returned. *)
Theorem getitem_asserts_native_shape self i w index_list path image :
  Py.dict_get (_indices self) (_dataset self) = Ok index_list ->
  Py.list_getitem index_list i = Ok path ->
  node_at (fs w) path = Some (ImageFile image) ->
  shape image <> [64; 64; 3] ->
  _getitem self i w = (Raise AssertionError, log (EvImread path) w).
Proof.
  intros Hd Hl Hn Hs.
  unfold _getitem, bind, lift, imread, raise.
  rewrite Hd, Hl, Hn, (shape_check_false image Hs). reflexivity.
Qed.

End Retrieval.

Lemma getitem_valid_item_raises_NameError_witness :
  fst (@_getitem Example.ops (Example.handle "val" 64 None) 0 Example.world)
  = Raise (NameError "image").
Proof.
  apply (@getitem_valid_item_raises_NameError Example.ops
           (Example.handle "val" 64 None) 0 Example.world
           (snd (nth 1 Example.indices ("", [])))
           "/d/val/images/val_0.JPEG" Example.rgb64);
    reflexivity.
Defined.

Lemma getitem_resizes_to_native_size_witness :
  @_getitem Example.ops (Example.handle "val" 128 None) 0 Example.world
  = (Raise (NameError "image"),
     {| fs := Example.disk;
        trace := [EvImread "/d/val/images/val_0.JPEG"; EvResize 64] |}).
Proof.
  apply (@getitem_resizes_to_native_size Example.ops
           (Example.handle "val" 128 None) 0 Example.world
           (snd (nth 1 Example.indices ("", [])))
           "/d/val/images/val_0.JPEG" Example.rgb64);
    try reflexivity.
  simpl. unfold IMAGE_SIZE_ACTUAL. lia.
Defined.

Lemma getitem_asserts_native_shape_witness :
  @_getitem Example.ops (Example.handle "test" 128 None) 0 Example.world
  = (Raise AssertionError,
     log (EvImread "/d/test/images/test_0.JPEG") Example.world).
Proof.
  apply (@getitem_asserts_native_shape Example.ops
           (Example.handle "test" 128 None) 0 Example.world
           (snd (nth 2 Example.indices ("", [])))
           "/d/test/images/test_0.JPEG" Example.rgb128);
    try reflexivity.
  simpl. congruence.
Defined.

(* ================================================================== *)
(** ** Slices and the limit *)

Lemma range_step_one start stop k :
  In k (Py.range start stop 1) <-> start <= k < stop.
Proof.
  unfold Py.range. change (0 <? 1) with true. cbv iota.
  rewrite Z.div_1_r. rewrite in_map_iff. split.
  - intros (j & <- & Hj). apply in_seq in Hj. lia.
  - intros Hk. exists (Z.to_nat (k - start)). split; [lia|].
    apply in_seq. lia.
Qed.

Section Slices.
Context `{Collaborators}.

Lemma getitem_limit self lim i w :
  __getitem__ (with_limit self lim) i w = __getitem__ self i w.
Proof. reflexivity. Qed.

(** C3, as the code has it.  A slice is resolved against the raw length of
    the active split's index and the limit is not consulted: for every
    limit, the slice [start:stop] with non-negative bounds resolves to
    exactly the positions from [start] up to, and not including, the
    smaller of [stop] and the raw length, and retrieval through
    [__getitem__] is the same as without a limit. *)
Theorem slice_resolved_against_raw_length self lim index_list start stop :
  Py.dict_get (_indices self) (_dataset self) = Ok index_list ->
  0 <= start -> 0 <= stop ->
  exists positions,
    slice_positions (with_limit self lim)
      (Py.Slice (Some start) (Some stop) None) = Ok positions
    /\ (forall k, In k positions <->
                  start <= k < stop
                  /\ k < Z.of_nat (List.length index_list))
    /\ (forall i w,
           __getitem__ (with_limit self lim) i w = __getitem__ self i w).
Proof.
  intros Hd Ha Hb.
  set (n := Z.of_nat (List.length index_list)).
  exists (Py.range (Z.min start n) (Z.min stop n) 1).
  split; [|split].
  - unfold slice_positions. simpl. rewrite Hd. simpl.
    unfold Py.slice_indices. simpl. fold n.
    destruct (Z.ltb_spec n 0) as [Hn|_]; [unfold n in Hn; lia|].
    destruct (Z.ltb_spec start 0) as [Hn|_]; [lia|].
    destruct (Z.ltb_spec stop 0) as [Hn|_]; [lia|].
    reflexivity.
  - intros k. rewrite range_step_one. lia.
  - intros i w. apply getitem_limit.
Qed.

End Slices.

Lemma slice_resolved_against_raw_length_witness :
  exists positions,
    slice_positions
      (with_limit (Example.handle "val" 64 None) (Some 4))
      (Py.Slice (Some 2) (Some 5) None) = Ok positions
    /\ (forall k, In k positions <-> 2 <= k < 5 /\ k < 6)
    /\ (forall i w,
           @__getitem__ Example.ops
             (with_limit (Example.handle "val" 64 None) (Some 4)) i w
           = @__getitem__ Example.ops (Example.handle "val" 64 None) i w).
Proof.
  apply (@slice_resolved_against_raw_length Example.ops
           (Example.handle "val" 64 None) (Some 4)
           (snd (nth 1 Example.indices ("", []))) 2 5).
  - reflexivity.
  - lia.
  - lia.
Defined.

(** C3, as the spec has it, fails.  With a limit of 4 on an index of six
    entries the length is 4, yet the slice 2:5 resolves to the three
    positions 2, 3, 4 where the bounded length would give 2, 3; and the
    slice 4:6 decodes the file at position 4 and fails there, where the
    bounded length would give an empty list without touching a file. *)
Lemma slice_bounded_length_counterexample :
  slice_positions (Example.handle "val" 64 (Some 4))
    (Py.Slice (Some 2) (Some 5) None)
  <> spec_slice_positions (Example.handle "val" 64 (Some 4))
       (Py.Slice (Some 2) (Some 5) None)
  /\ __len__ (Example.handle "val" 64 (Some 4)) = Ok 4
  /\ slice_positions (Example.handle "val" 64 (Some 4))
       (Py.Slice (Some 2) (Some 5) None) = Ok [2; 3; 4]
  /\ spec_slice_positions (Example.handle "val" 64 (Some 4))
       (Py.Slice (Some 2) (Some 5) None) = Ok [2; 3]
  /\ spec_slice_positions (Example.handle "val" 64 (Some 4))
       (Py.Slice (Some 4) (Some 6) None) = Ok []
  /\ @__getitem__ Example.ops (Example.handle "val" 64 (Some 4))
       (Range (Py.Slice (Some 4) (Some 6) None)) Example.world
     = (Raise (NameError "image"),
        {| fs := Example.disk;
           trace := [EvImread "/d/val/images/val_4.JPEG"] |}).
Proof. split; [discriminate | repeat split; reflexivity]. Qed.

(* ================================================================== *)
(** ** The [transform] argument *)

(** C10.  [__init__] never reads [transform]: two constructions that differ
    only in that argument give the same result and the same world, and so
    does everything a caller goes on to do with the instance (length
    queries, retrievals). *)
Theorem init_ignores_transform {T1 T2 A : Type} (t1 : T1) (t2 : T2)
    (root dataset : string) (image_size : Z) (image_dtype : np_dtype)
    (limit : option Z) (clean : string)
    (client : TinyImageNet -> M A) (w : World) :
  __init__ root dataset image_size image_dtype limit clean t1 w
  = __init__ root dataset image_size image_dtype limit clean t2 w
  /\ bind (__init__ root dataset image_size image_dtype limit clean t1)
       client w
     = bind (__init__ root dataset image_size image_dtype limit clean t2)
         client w.
Proof. split; reflexivity. Qed.

(* ================================================================== *)
(** ** Construction *)

Lemma outcome_bind {A B} (P : exn -> Prop) (Q : A -> World -> Prop)
    (Q' : B -> World -> Prop) (m : M A) (k : A -> M B) w :
  outcome P Q m w ->
  (forall a w', Q a w' -> outcome P Q' (k a) w') ->
  outcome P Q' (bind m k) w.
Proof.
  intros H1 H2. unfold outcome in H1 |- *. unfold bind.
  destruct (m w) as [[a|e] w']; [exact (H2 a w' H1) | exact H1].
Qed.

Lemma outcome_weaken {A} (P P' : exn -> Prop) (Q Q' : A -> World -> Prop)
    (m : M A) w :
  outcome P Q m w ->
  (forall e, P e -> P' e) -> (forall a w', Q a w' -> Q' a w') ->
  outcome P' Q' m w.
Proof.
  unfold outcome. destruct (m w) as [[a|e] w']; auto.
Qed.

Lemma data_error_not_configuration e :
  data_error e -> ~ configuration_error e.
Proof.
  intros [[m ->]|[p ->]] [E|[m' E]]; discriminate.
Qed.

Lemma search_gives_match s i :
  Py.re_search_digits_eol s = Some i ->
  Py.match_digits_eol (Py.str_drop i s) = true.
Proof.
  revert i. induction s as [|c s IH]; intros i; [discriminate|].
  change (Py.re_search_digits_eol (String c s))
    with (if Py.match_digits_eol (String c s) then Some O
          else option_map S (Py.re_search_digits_eol s)).
  destruct (Py.match_digits_eol (String c s)) eqn:E.
  - intros [= <-]. exact E.
  - destruct (Py.re_search_digits_eol s) as [j|]; [|discriminate].
    intros [= <-]. simpl. now apply IH.
Qed.

Lemma int_digits_eol s :
  Py.digits_eol s = true ->
  forall acc, exists n, Py.int_digits s acc true = Some n.
Proof.
  induction s as [|c s IH]; intros E acc; simpl.
  - now exists acc.
  - simpl in E. destruct (Py.is_digit c) eqn:Ec.
    + now apply IH.
    + apply andb_prop in E as [E1 E2].
      apply Ascii.eqb_eq in E1. apply String.eqb_eq in E2. subst.
      now exists acc.
Qed.

Lemma int_of_match s :
  Py.match_digits_eol s = true -> exists n, Py.int s = Ok n.
Proof.
  destruct s as [|c s]; [discriminate|]. simpl.
  intros E. apply andb_prop in E as [Ec Es].
  destruct (int_digits_eol s Es (10 * 0 + Py.digit_value c)) as [n Hn].
  exists n. unfold Py.int.
  assert (El : Py.lstrip (String c s) = String c s)
    by (simpl; now rewrite (digit_not_space c Ec)).
  rewrite El.
  assert (Ei : Py.int_digits (String c s) 0 false = Some n)
    by (simpl; now rewrite Ec).
  destruct c as [[] [] [] [] [] [] [] []];
    try discriminate Ec; now rewrite Ei.
Qed.

Lemma parse_num_error f e : parse_num f = Raise e -> data_error e.
Proof.
  unfold parse_num.
  destruct (Py.re_search_digits_eol (Py.rsplit_dot_head f)) as [i|] eqn:E.
  - destruct (int_of_match _ (search_gives_match _ _ E)) as [n Hn].
    rewrite Hn. discriminate.
  - intros [= <-]. left. eauto.
Qed.

Lemma mapM_error {A B} (f : A -> result B) l e :
  Res.mapM f l = Raise e -> exists x, In x l /\ f x = Raise e.
Proof.
  induction l as [|x l IH]; simpl; [discriminate|].
  destruct (f x) as [y|e'] eqn:E; simpl.
  - destruct (Res.mapM f l) as [ys|e'']; simpl; [discriminate|].
    intros [= <-]. destruct IH as (x' & Hin & Hx'); [reflexivity|].
    exists x'. auto.
  - intros [= <-]. exists x. auto.
Qed.

Lemma listdir_outcome path sort_num w :
  outcome data_error (fun _ w' => w' = w) (_listdir path sort_num) w.
Proof.
  unfold outcome, _listdir, bind, glob, lift, ret.
  destruct sort_num; [|reflexivity].
  destruct (Py.sort_by_key parse_num _) as [l|e] eqn:E; [reflexivity|].
  unfold Py.sort_by_key in E.
  destruct (Res.mapM parse_num _) as [ks|e'] eqn:Em; simpl in E;
    [discriminate|].
  injection E as <-.
  destruct (mapM_error _ _ _ Em) as (x & _ & Hx).
  exact (parse_num_error x e' Hx).
Qed.

Lemma build_train_outcome classes index_list w :
  outcome data_error (fun _ w' => w' = w)
    (build_train classes index_list) w.
Proof.
  revert index_list. induction classes as [|c classes IH];
    intros index_list; [reflexivity|].
  simpl. eapply outcome_bind; [apply listdir_outcome|].
  intros files w' ->. apply IH.
Qed.

Lemma build_index_outcome self dataset w :
  outcome data_error
    (fun s w' =>
       w' = w /\
       exists l,
         s = with_indices self
               (Py.dict_set (Py.dict_set (_indices self) dataset [])
                  dataset l))
    (_build_index self dataset) w.
Proof.
  unfold _build_index. destruct (String.eqb dataset DATASET_TRAIN).
  - eapply outcome_bind; [apply listdir_outcome|].
    intros classes w' ->.
    eapply outcome_bind; [apply build_train_outcome|].
    intros l w' ->. unfold outcome, ret. split; [reflexivity|].
    now exists l.
  - eapply outcome_bind; [apply listdir_outcome|].
    intros l w' ->. unfold outcome, ret. split; [reflexivity|].
    now exists l.
Qed.

(** A successful [_build_indices] leaves the world as it was and fills
    the dictionary with the three splits, in this order. *)
Lemma build_indices_outcome self w :
  outcome data_error
    (fun s w' =>
       w' = w /\
       exists tr va te,
         s = with_indices self
               [(DATASET_TRAIN, tr); (DATASET_VAL, va); (DATASET_TEST, te)])
    (_build_indices self) w.
Proof.
  unfold _build_indices.
  eapply outcome_bind; [apply build_index_outcome|].
  intros s1 w1 (-> & tr & ->).
  eapply outcome_bind; [apply build_index_outcome|].
  intros s2 w2 (-> & va & ->).
  eapply outcome_weaken; [apply build_index_outcome | auto |].
  intros s3 w3 (-> & te & ->). split; [reflexivity|].
  now exists tr, va, te.
Qed.

Lemma init_unfold {T} root dataset image_size dt lim clean (t : T) w :
  __init__ root dataset image_size dt lim clean t w
  = if negb (is_directory (fs w) root) then
      (Raise (ValueError ("not a directory: '" ++ root ++ "'")), w)
    else if negb (existsb (String.eqb dataset) valid_datasets) then
      (Raise (ValueError
                ("dataset must be either of "
                 ++ String.concat ", " valid_datasets)), w)
    else if negb (IMAGE_SIZE_ACTUAL <=? image_size) then
      (Raise AssertionError, w)
    else
      bind (_build_indices (configured root dataset image_size dt lim))
        (fun self => _clean self clean) w.
Proof.
  unfold __init__, root_setter, dataset_setter, image_size_setter.
  unfold bind at 1. unfold bind at 1. unfold isdir.
  destruct (is_directory (fs w) root); [|reflexivity].
  cbn [negb]. cbv iota. fold valid_datasets.
  destruct (existsb (String.eqb dataset) valid_datasets); [|reflexivity].
  cbn [negb]. cbv iota. unfold bind at 1. unfold bind at 1.
  unfold ret at 1. cbv iota beta.
  destruct (IMAGE_SIZE_ACTUAL <=? image_size); reflexivity.
Qed.

Lemma imread_outcome path w :
  outcome data_error (fun _ _ => True) (imread path) w.
Proof.
  unfold outcome, imread.
  destruct (node_at (fs w) path) as [[|a|]|]; try exact I;
    right; now exists path.
Qed.

Lemma remove_outcome path w :
  outcome data_error (fun _ _ => True) (remove path) w.
Proof.
  unfold outcome, remove.
  destruct (node_at (fs w) path) as [[|a|]|];
    try destruct (can_remove (fs w) path); try exact I;
    right; now exists path.
Qed.

Lemma filter_index_outcome purge index_list index_rgb_only w :
  outcome data_error (fun _ _ => True)
    (filter_index purge index_list index_rgb_only) w.
Proof.
  revert index_rgb_only w.
  induction index_list as [|path rest IH]; intros acc w; [exact I|].
  simpl. eapply outcome_bind; [apply imread_outcome|].
  intros image w1 _. destruct (_is_rgb image); [apply IH|].
  destruct purge; [|apply IH].
  eapply outcome_bind; [apply remove_outcome|].
  intros _ w2 _. apply IH.
Qed.

Lemma dict_set_keys {V} (d : Py.dict V) k v :
  In k (Py.keys d) -> Py.keys (Py.dict_set d k v) = Py.keys d.
Proof.
  induction d as [|[k' v'] d IH]; simpl; [tauto|].
  intros [E|Hin]; destruct (String.eqb_spec k' k) as [->|Hne]; simpl;
    try reflexivity; try congruence.
  now rewrite IH.
Qed.

Lemma dict_get_key {V} (d : Py.dict V) k :
  In k (Py.keys d) -> exists v, Py.dict_get d k = Ok v.
Proof.
  induction d as [|[k' v'] d IH]; simpl; [tauto|].
  intros Hin. destruct (String.eqb_spec k' k) as [->|Hne]; [now exists v'|].
  destruct Hin as [E|Hin]; [congruence | now apply IH].
Qed.

Lemma filter_items_outcome purge items self w :
  incl (Py.keys items) (Py.keys (_indices self)) ->
  outcome data_error
    (fun s _ =>
       same_config s self /\ Py.keys (_indices s) = Py.keys (_indices self))
    (filter_items purge items self) w.
Proof.
  revert self w. induction items as [|[k l] items IH]; intros self w Hincl.
  - unfold outcome. simpl. split; reflexivity.
  - simpl. eapply outcome_bind; [apply filter_index_outcome|].
    intros new w1 _.
    assert (Hk : In k (Py.keys (_indices self)))
      by (apply Hincl; now left).
    eapply outcome_weaken; [apply IH | auto |].
    + simpl. rewrite (dict_set_keys _ _ _ Hk).
      intros x Hx. apply Hincl. now right.
    + simpl. intros s _ [Hs Hkeys]. split; [exact Hs|].
      rewrite Hkeys. now apply dict_set_keys.
Qed.

Lemma clean_outcome self clean w :
  outcome
    (fun e =>
       data_error e
       \/ (~ In clean valid_cleanings
           /\ e = ValueError "invalid cleaning procedure"))
    (fun s _ =>
       same_config s self /\ Py.keys (_indices s) = Py.keys (_indices self))
    (_clean self clean) w.
Proof.
  unfold _clean.
  destruct (String.eqb_spec clean CLEAN_SKIP) as [E1|E1].
  { eapply outcome_weaken;
      [apply filter_items_outcome, incl_refl | auto | auto]. }
  destruct (String.eqb_spec clean CLEAN_PURGE) as [E2|E2].
  { eapply outcome_weaken;
      [apply filter_items_outcome, incl_refl | auto | auto]. }
  destruct (String.eqb_spec clean CLEAN_ASSUME) as [E3|E3].
  - unfold outcome. simpl. split; reflexivity.
  - unfold outcome. simpl. right. split; [|reflexivity].
    unfold valid_cleanings. simpl. intuition congruence.
Qed.

Lemma clean_invalid self clean w :
  ~ In clean valid_cleanings ->
  _clean self clean w = (Raise (ValueError "invalid cleaning procedure"), w).
Proof.
  intros Hb. unfold valid_cleanings in Hb. simpl in Hb. unfold _clean.
  destruct (String.eqb_spec clean CLEAN_SKIP) as [E1|E1];
    [exfalso; intuition congruence|].
  destruct (String.eqb_spec clean CLEAN_PURGE) as [E2|E2];
    [exfalso; intuition congruence|].
  destruct (String.eqb_spec clean CLEAN_ASSUME) as [E3|E3];
    [exfalso; intuition congruence | reflexivity].
Qed.

Lemma valid_dataset_iff dataset :
  existsb (String.eqb dataset) valid_datasets = true
  <-> In dataset valid_datasets.
Proof.
  rewrite existsb_exists. split.
  - intros (x & Hin & E). apply String.eqb_eq in E. now subst.
  - intros Hin. exists dataset. split; [exact Hin | apply String.eqb_refl].
Qed.

(** What a construction with a directory as root, a known split and a
    size of at least 64 comes to. *)
Lemma init_outcome {T} root dataset image_size dt lim clean (t : T) w :
  is_directory (fs w) root = true ->
  In dataset valid_datasets ->
  IMAGE_SIZE_ACTUAL <= image_size ->
  outcome
    (fun e =>
       data_error e
       \/ (~ In clean valid_cleanings
           /\ e = ValueError "invalid cleaning procedure"))
    (fun s _ =>
       same_config s (configured root dataset image_size dt lim)
       /\ Py.keys (_indices s) = valid_datasets)
    (__init__ root dataset image_size dt lim clean t) w.
Proof.
  intros Hr Hd Hs. unfold outcome. rewrite init_unfold, Hr.
  apply valid_dataset_iff in Hd. rewrite Hd.
  apply Z.leb_le in Hs. rewrite Hs. cbn [negb]. cbv iota.
  change (outcome
    (fun e =>
       data_error e
       \/ (~ In clean valid_cleanings
           /\ e = ValueError "invalid cleaning procedure"))
    (fun s (_ : World) =>
       same_config s (configured root dataset image_size dt lim)
       /\ Py.keys (_indices s) = valid_datasets)
    (bind (_build_indices (configured root dataset image_size dt lim))
       (fun self => _clean self clean)) w).
  eapply outcome_bind.
  - eapply outcome_weaken; [apply build_indices_outcome | auto |].
    intros s w' HQ. exact HQ.
  - intros s w' (-> & tr & va & te & ->).
    eapply outcome_weaken; [apply clean_outcome | auto |].
    simpl. intros s' _ [Hc Hk]. split; [exact Hc | exact Hk].
Qed.

Lemma init_ok_inv {T} root dataset image_size dt lim clean (t : T) w self w' :
  __init__ root dataset image_size dt lim clean t w = (Ok self, w') ->
  is_directory (fs w) root = true
  /\ In dataset valid_datasets
  /\ IMAGE_SIZE_ACTUAL <= image_size
  /\ same_config self (configured root dataset image_size dt lim)
  /\ Py.keys (_indices self) = valid_datasets.
Proof.
  intros E.
  assert (Hc : is_directory (fs w) root = true
               /\ In dataset valid_datasets
               /\ IMAGE_SIZE_ACTUAL <= image_size).
  { rewrite init_unfold in E.
    destruct (is_directory (fs w) root); [|discriminate].
    destruct (existsb (String.eqb dataset) valid_datasets) eqn:Ed;
      [|discriminate].
    destruct (Z.leb_spec IMAGE_SIZE_ACTUAL image_size); [|discriminate].
    split; [reflexivity|]. split; [now apply valid_dataset_iff | assumption]. }
  destruct Hc as (Hr & Hd & Hs). repeat (split; [assumption|]).
  pose proof (init_outcome root dataset image_size dt lim clean t w Hr Hd Hs)
    as Ho.
  unfold outcome in Ho. rewrite E in Ho. exact Ho.
Qed.

(** C4.  For every instance that [__init__] returns, [__len__] is the
    smaller of the limit and the length of the active split's index when a
    limit was given, and the length of that index when none was. *)
Theorem len_of_constructed {T} root dataset image_size dt lim clean (t : T)
    w self w' :
  __init__ root dataset image_size dt lim clean t w = (Ok self, w') ->
  exists index_list,
    Py.dict_get (_indices self) (_dataset self) = Ok index_list
    /\ limit self = lim
    /\ __len__ self
       = Ok match lim with
            | Some k => Z.min k (Z.of_nat (List.length index_list))
            | None => Z.of_nat (List.length index_list)
            end.
Proof.
  intros E. apply init_ok_inv in E as (_ & Hd & _ & Hc & Hk).
  assert (Eds : _dataset self = dataset)
    by exact (f_equal _dataset Hc).
  assert (Elim : limit self = lim) by exact (f_equal limit Hc).
  destruct (dict_get_key (_indices self) (_dataset self)) as [l Hl].
  { rewrite Hk, Eds. exact Hd. }
  exists l. split; [exact Hl|]. split; [exact Elim|].
  unfold __len__. rewrite Hl. simpl. rewrite Elim. now destruct lim.
Qed.

(** C9.  [__init__] raises, and returns no instance, when the root is not a
    directory, when the split is not one of train, val, test, when the
    image size is below 64, or when the cleaning mode is not one of assume,
    skip, purge; with all four valid, whatever it raises is not one of
    these errors (no [ValueError], no [AssertionError]). *)
Theorem init_configuration_errors {T} root dataset image_size dt lim clean
    (t : T) w :
  (is_directory (fs w) root = false
   \/ ~ In dataset valid_datasets
   \/ image_size < IMAGE_SIZE_ACTUAL
   \/ ~ In clean valid_cleanings ->
   exists e,
     fst (__init__ root dataset image_size dt lim clean t w) = Raise e)
  /\ (is_directory (fs w) root = true ->
      In dataset valid_datasets ->
      IMAGE_SIZE_ACTUAL <= image_size ->
      In clean valid_cleanings ->
      forall e,
        fst (__init__ root dataset image_size dt lim clean t w) = Raise e ->
        ~ configuration_error e).
Proof.
  split.
  - intros Hbad. rewrite init_unfold.
    destruct (is_directory (fs w) root) eqn:Hr; [|eexists; reflexivity].
    destruct (existsb (String.eqb dataset) valid_datasets) eqn:Hd;
      [|eexists; reflexivity].
    destruct (Z.leb_spec IMAGE_SIZE_ACTUAL image_size) as [Hs|Hs];
      [|eexists; reflexivity].
    cbn [negb]. cbv iota.
    apply valid_dataset_iff in Hd.
    destruct Hbad as [Hb|[Hb|[Hb|Hb]]]; [discriminate | tauto | lia |].
    unfold bind.
    destruct (_build_indices _ w) as [[s|e] w1]; [|now exists e].
    rewrite (clean_invalid s clean w1 Hb). eexists; reflexivity.
  - intros Hr Hd Hs Hc e E.
    pose proof (init_outcome root dataset image_size dt lim clean t w Hr Hd Hs)
      as Ho.
    unfold outcome in Ho.
    destruct (__init__ root dataset image_size dt lim clean t w)
      as [[s|e'] w1]; simpl in E; [discriminate|].
    injection E as ->. destruct Ho as [Ho|[Ho _]]; [|tauto].
    now apply data_error_not_configuration.
Qed.

(* ================================================================== *)
(** ** The cleaning pass *)

Local Open Scope list_scope.

Lemma rejected_app f l1 l2 p :
  rejected f (l1 ++ l2) p = rejected f l1 p || rejected f l2 p.
Proof.
  unfold rejected. rewrite existsb_app. apply andb_orb_distrib_l.
Qed.

Lemma rejected_not_in f l p : ~ In p l -> rejected f l p = false.
Proof.
  intros Hn. unfold rejected.
  destruct (existsb (String.eqb p) l) eqn:E; [|reflexivity].
  apply existsb_exists in E as (x & Hin & Hx).
  apply String.eqb_eq in Hx. now subst.
Qed.

Lemma rejected_in f l p : rejected f l p = true -> In p l.
Proof.
  unfold rejected. intros E. apply andb_prop in E as [E _].
  apply existsb_exists in E as (x & Hin & Hx).
  apply String.eqb_eq in Hx. now subst.
Qed.

Lemma decodes_to_rgb_ext f f' p :
  node_at f' p = node_at f p -> decodes_to_rgb f' p = decodes_to_rgb f p.
Proof. unfold decodes_to_rgb. now intros ->. Qed.

Lemma cleaned_disk_node purge f l f' p :
  cleaned_disk purge f l f' -> (purge = true -> ~ In p l) ->
  node_at f' p = node_at f p.
Proof.
  destruct purge; simpl.
  - intros Hp Hn. rewrite Hp, rejected_not_in; auto.
  - now intros ->.
Qed.

Lemma cleaned_disk_app purge f l1 f1 l2 f2 :
  cleaned_disk purge f l1 f1 -> cleaned_disk purge f1 l2 f2 ->
  (purge = true -> forall p, In p l1 -> ~ In p l2) ->
  cleaned_disk purge f (l1 ++ l2) f2.
Proof.
  destruct purge; simpl.
  - intros H1 H2 Hd p. specialize (Hd eq_refl).
    rewrite rejected_app, H2.
    assert (E : rejected f1 l2 p = rejected f l2 p).
    { destruct (rejected f l2 p) eqn:E2.
      - pose proof (rejected_in _ _ _ E2) as Hin.
        unfold rejected in *. apply andb_prop in E2 as [Ea Eb].
        rewrite Ea. simpl. rewrite <- Eb. f_equal.
        apply decodes_to_rgb_ext. rewrite H1, rejected_not_in; auto.
        intros Hin1. exact (Hd p Hin1 Hin).
      - destruct (rejected f1 l2 p) eqn:E1; [|reflexivity].
        pose proof (rejected_in _ _ _ E1) as Hin.
        unfold rejected in *. apply andb_prop in E1 as [Ea Eb].
        rewrite Ea in E2. simpl in E2. rewrite <- E2, <- Eb. f_equal.
        symmetry. apply decodes_to_rgb_ext.
        rewrite H1, rejected_not_in; auto.
        intros Hin1. exact (Hd p Hin1 Hin). }
    rewrite E. destruct (rejected f l2 p); [now rewrite orb_true_r|].
    rewrite orb_false_r. apply H1.
  - intros -> -> _. reflexivity.
Qed.

Lemma filter_decodes_ext f f' l :
  (forall p, In p l -> node_at f' p = node_at f p) ->
  filter (decodes_to_rgb f') l = filter (decodes_to_rgb f) l.
Proof.
  intros Hl. apply filter_ext_in. intros p Hp.
  apply decodes_to_rgb_ext. now apply Hl.
Qed.

(** One step of the inner loop, on a file that decodes. *)
Lemma filter_index_step purge path a rest acc w :
  node_at (fs w) path = Some (ImageFile a) ->
  (purge = true -> deletable_rejects (fs w) [path]) ->
  exists w1,
    cleaned_disk purge (fs w) [path] (fs w1)
    /\ can_remove (fs w1) = can_remove (fs w)
    /\ filter_index purge (path :: rest) acc w
       = filter_index purge rest
           (acc ++ filter (decodes_to_rgb (fs w)) [path]) w1.
Proof.
  intros Ha Hrm. simpl filter_index. unfold bind at 1. unfold imread.
  rewrite Ha. simpl filter.
  assert (Ed : decodes_to_rgb (fs w) path = _is_rgb a)
    by (unfold decodes_to_rgb; now rewrite Ha).
  rewrite Ed. destruct (_is_rgb a) eqn:Ergb.
  - exists (log (EvImread path) w). split; [|split; reflexivity].
    destruct purge; simpl; [|reflexivity].
    intros p. unfold rejected. simpl. rewrite orb_false_r.
    destruct (String.eqb_spec p path) as [->|]; [|reflexivity].
    now rewrite Ed.
  - rewrite app_nil_r. destruct purge.
    + unfold bind at 1. unfold remove. simpl fs. rewrite Ha.
      rewrite (Hrm eq_refl path (or_introl eq_refl) Ed).
      exists {| fs := unlink path (fs w);
                trace := trace (log (EvImread path) w) ++ [EvRemove path] |}.
      split; [|split; reflexivity]. simpl.
      intros p. unfold rejected. simpl. rewrite orb_false_r.
      destruct (String.eqb_spec p path) as [->|]; [|reflexivity].
      now rewrite Ed.
    + exists (log (EvImread path) w). repeat split.
Qed.

Lemma deletable_rejects_ext f f' l :
  (forall p, In p l -> node_at f' p = node_at f p) ->
  can_remove f' = can_remove f ->
  deletable_rejects f l -> deletable_rejects f' l.
Proof.
  intros Hn Hc Hd p Hp E. rewrite Hc. apply Hd; [exact Hp|].
  now rewrite <- (decodes_to_rgb_ext f f' p (Hn p Hp)).
Qed.

Lemma filter_index_spec purge index_list :
  forall acc w,
    (forall p, In p index_list -> decodable (fs w) p) ->
    (purge = true -> NoDup index_list) ->
    (purge = true -> deletable_rejects (fs w) index_list) ->
    exists w',
      filter_index purge index_list acc w
      = (Ok (acc ++ filter (decodes_to_rgb (fs w)) index_list)%list, w')
      /\ cleaned_disk purge (fs w) index_list (fs w')
      /\ can_remove (fs w') = can_remove (fs w).
Proof.
  induction index_list as [|path rest IH]; intros acc w Hdec Hnd Hrm.
  - exists w. simpl. rewrite app_nil_r. split; [reflexivity|].
    split; [|reflexivity].
    destruct purge; simpl; [|reflexivity]. intros p. reflexivity.
  - destruct (Hdec path (or_introl eq_refl)) as [a Ha].
    destruct (filter_index_step purge path a rest acc w Ha)
      as (w1 & Hc1 & Hr1 & ->).
    { intros Hp p [<-|[]]. apply (Hrm Hp). now left. }
    assert (Hfresh : purge = true -> forall p, In p [path] -> ~ In p rest).
    { intros Hp p [<-|[]]. specialize (Hnd Hp). now inversion Hnd. }
    assert (Hsame : forall p, In p rest ->
                              node_at (fs w1) p = node_at (fs w) p).
    { intros p Hp. eapply cleaned_disk_node; [exact Hc1|].
      intros Ep [E|[]]. subst p.
      exact (Hfresh Ep path (or_introl eq_refl) Hp). }
    destruct (IH (acc ++ filter (decodes_to_rgb (fs w)) [path]) w1)
      as (w' & E & Hc2 & Hr2).
    { intros p Hp. destruct (Hdec p (or_intror Hp)) as [b Hb].
      exists b. now rewrite Hsame. }
    { intros Hp. specialize (Hnd Hp). now inversion Hnd. }
    { intros Hp. apply (deletable_rejects_ext (fs w)); [exact Hsame|exact Hr1|].
      intros p Hin. apply (Hrm Hp). now right. }
    exists w'. split; [|split].
    + rewrite E, (filter_decodes_ext _ _ _ Hsame), <- app_assoc.
      now rewrite <- filter_app.
    + exact (cleaned_disk_app purge _ [path] _ rest _ Hc1 Hc2 Hfresh).
    + congruence.
Qed.

Lemma NoDup_app_disjoint {A} (l1 l2 : list A) :
  NoDup (l1 ++ l2) -> forall a, In a l1 -> ~ In a l2.
Proof.
  induction l1 as [|x l1 IH]; simpl; intros Hn a; [tauto|].
  inversion Hn as [|? ? Hx Hn']; subst. intros [->|Hin] H2.
  - apply Hx, in_or_app. now right.
  - exact (IH Hn' a Hin H2).
Qed.

Lemma dict_set_middle {V} (pre post : Py.dict V) k v v' :
  ~ In k (Py.keys pre) ->
  Py.dict_set (pre ++ (k, v) :: post) k v' = pre ++ (k, v') :: post.
Proof.
  induction pre as [|[k0 v0] pre IH]; simpl; intros Hn.
  - now rewrite String.eqb_refl.
  - destruct (String.eqb_spec k0 k) as [->|Hne]; [tauto|].
    rewrite IH; [reflexivity | tauto].
Qed.

Lemma in_all_paths k l (items : Py.dict (list string)) p :
  In (k, l) items -> In p l -> In p (all_paths items).
Proof.
  intros Hi Hp. unfold all_paths. apply in_concat. exists l.
  split; [|exact Hp]. apply in_map_iff. now exists (k, l).
Qed.

Lemma filtered_indices_ext f f' items :
  (forall p, In p (all_paths items) -> node_at f' p = node_at f p) ->
  filtered_indices f' items = filtered_indices f items.
Proof.
  intros Hs. unfold filtered_indices. apply map_ext_in.
  intros [k l] Hin. simpl. f_equal. apply filter_decodes_ext.
  intros p Hp. apply Hs. exact (in_all_paths k l items p Hin Hp).
Qed.

Lemma filter_items_spec purge items :
  forall pre self w,
    _indices self = pre ++ items ->
    NoDup (Py.keys (pre ++ items)) ->
    (forall p, In p (all_paths items) -> decodable (fs w) p) ->
    (purge = true -> NoDup (all_paths items)) ->
    (purge = true -> deletable_rejects (fs w) (all_paths items)) ->
    exists w',
      filter_items purge items self w
      = (Ok (with_indices self (pre ++ filtered_indices (fs w) items)), w')
      /\ cleaned_disk purge (fs w) (all_paths items) (fs w')
      /\ can_remove (fs w') = can_remove (fs w).
Proof.
  induction items as [|[k l] items IH];
    intros pre self w Hi Hk Hdec Hnd Hrm.
  - exists w. simpl. split; [|split; [|reflexivity]].
    + rewrite app_nil_r in *. unfold ret. f_equal. f_equal.
      destruct self; simpl in *; now subst.
    + destruct purge; simpl; [|reflexivity]. intros p. reflexivity.
  - change (all_paths ((k, l) :: items)) with (l ++ all_paths items) in *.
    destruct (filter_index_spec purge l [] w) as (w1 & E1 & Hc1 & Hr1).
    { intros p Hp. apply Hdec, in_or_app. now left. }
    { intros Hp. exact (NoDup_app_remove_r _ _ (Hnd Hp)). }
    { intros Hp p Hin. apply (Hrm Hp), in_or_app. now left. }
    assert (Hfresh : purge = true ->
                     forall p, In p l -> ~ In p (all_paths items)).
    { intros Hp. exact (NoDup_app_disjoint _ _ (Hnd Hp)). }
    assert (Hsame : forall p, In p (all_paths items) ->
                              node_at (fs w1) p = node_at (fs w) p).
    { intros p Hp. eapply cleaned_disk_node; [exact Hc1|].
      intros Ep Hl. exact (Hfresh Ep p Hl Hp). }
    assert (Hkpre : ~ In k (Py.keys pre)).
    { unfold Py.keys in Hk. rewrite map_app in Hk. simpl in Hk.
      apply NoDup_remove_2 in Hk. intros Hin. apply Hk.
      apply in_or_app. now left. }
    simpl filter_items. unfold bind at 1. rewrite E1. simpl app.
    rewrite Hi, (dict_set_middle pre items k l _ Hkpre).
    destruct (IH (pre ++ [(k, filter (decodes_to_rgb (fs w)) l)])
                (with_indices self
                   (pre ++ (k, filter (decodes_to_rgb (fs w)) l) :: items))
                w1) as (w' & E & Hc2 & Hr2).
    { simpl. now rewrite <- app_assoc. }
    { rewrite <- app_assoc. simpl.
      unfold Py.keys in *. rewrite map_app in *. exact Hk. }
    { intros p Hp. destruct (Hdec p) as [b Hb];
        [apply in_or_app; now right|].
      exists b. now rewrite Hsame. }
    { intros Hp. exact (NoDup_app_remove_l _ _ (Hnd Hp)). }
    { intros Hp. apply (deletable_rejects_ext (fs w)); [exact Hsame|exact Hr1|].
      intros p Hin. apply (Hrm Hp), in_or_app. now right. }
    exists w'. split; [|split].
    + rewrite E, (filtered_indices_ext _ _ _ Hsame), <- app_assoc.
      reflexivity.
    + exact (cleaned_disk_app purge _ l _ _ _ Hc1 Hc2 Hfresh).
    + congruence.
Qed.

(** Without purging, the cleaning pass leaves the disk as it was, whether
    it completes or fails on a file that does not decode. *)
Lemma filter_index_skip_disk index_list :
  forall acc w, fs (snd (filter_index false index_list acc w)) = fs w.
Proof.
  induction index_list as [|path rest IH]; intros acc w; [reflexivity|].
  simpl. unfold bind, imread.
  destruct (node_at (fs w) path) as [[|a|]|]; try reflexivity.
  destruct (_is_rgb a); now rewrite IH.
Qed.

Lemma filter_items_skip_disk items :
  forall self w, fs (snd (filter_items false items self w)) = fs w.
Proof.
  induction items as [|[k l] items IH]; intros self w; [reflexivity|].
  simpl. unfold bind.
  pose proof (filter_index_skip_disk l [] w) as Hl.
  destruct (filter_index false l [] w) as [[new|e] w1]; simpl in Hl.
  - now rewrite IH.
  - exact Hl.
Qed.

Lemma clean_skip_keeps_disk self w :
  fs (snd (_clean self CLEAN_SKIP w)) = fs w.
Proof. apply filter_items_skip_disk. Qed.

(** The cleaning pass over the three splits, in either filtering mode:
    the instance it returns has the filtered indices and the attributes of
    the instance it started from. *)
Lemma clean_three_splits purge self w tr va te :
  _indices self
  = [(DATASET_TRAIN, tr); (DATASET_VAL, va); (DATASET_TEST, te)] ->
  (forall p, In p (tr ++ va ++ te) -> decodable (fs w) p) ->
  (purge = true -> NoDup (tr ++ va ++ te)) ->
  (purge = true -> deletable_rejects (fs w) (tr ++ va ++ te)) ->
  exists s' w',
    _clean self (if purge then CLEAN_PURGE else CLEAN_SKIP) w = (Ok s', w')
    /\ _indices s'
       = [(DATASET_TRAIN, filter (decodes_to_rgb (fs w)) tr);
          (DATASET_VAL, filter (decodes_to_rgb (fs w)) va);
          (DATASET_TEST, filter (decodes_to_rgb (fs w)) te)]
    /\ same_attributes s' self
    /\ cleaned_disk purge (fs w) (tr ++ va ++ te) (fs w').
Proof.
  intros Hi Hdec Hnd Hrm.
  assert (Ep : all_paths (_indices self) = tr ++ va ++ te)
    by (rewrite Hi; unfold all_paths; simpl; now rewrite app_nil_r).
  destruct (filter_items_spec purge (_indices self) [] self w)
    as (w' & E & Hc & _).
  - reflexivity.
  - rewrite Hi. simpl.
    repeat constructor; simpl; intuition discriminate.
  - now rewrite Ep.
  - now rewrite Ep.
  - now rewrite Ep.
  - exists (with_indices self ([] ++ filtered_indices (fs w) (_indices self))).
    exists w'. rewrite Ep in Hc. split; [|split; [|split]].
    + rewrite <- E. unfold _clean, _filter_non_rgb. now destruct purge.
    + rewrite Hi. reflexivity.
    + repeat split.
    + exact Hc.
Qed.

(** C6.  In SKIP mode the cleaning pass replaces the index of each of the
    three splits, whichever is active, by its entries whose decoded array
    passes [_is_rgb], in their original order, keeps every other attribute
    of the instance, and leaves the disk as it was; every indexed file is
    taken to decode. *)
Theorem clean_skip_filters_all_splits self w tr va te :
  _indices self
  = [(DATASET_TRAIN, tr); (DATASET_VAL, va); (DATASET_TEST, te)] ->
  (forall p, In p (tr ++ va ++ te) -> decodable (fs w) p) ->
  exists s' w',
    _clean self CLEAN_SKIP w = (Ok s', w')
    /\ _indices s'
       = [(DATASET_TRAIN, filter (decodes_to_rgb (fs w)) tr);
          (DATASET_VAL, filter (decodes_to_rgb (fs w)) va);
          (DATASET_TEST, filter (decodes_to_rgb (fs w)) te)]
    /\ same_attributes s' self
    /\ fs w' = fs w.
Proof.
  intros Hi Hdec.
  destruct (clean_three_splits false self w tr va te Hi Hdec)
    as (s' & w' & E & Hidx & Hattr & Hc); [discriminate | discriminate |].
  exists s', w'. repeat split; try assumption; apply Hattr.
Qed.

(** C7.  In PURGE mode the cleaning pass gives the indices that SKIP mode
    gives, each index reduced to its entries that pass [_is_rgb], and on
    disk every indexed file whose array fails [_is_rgb] is gone while every
    other file, retained or not indexed, is as it was; every indexed file
    is taken to decode, no path is indexed twice, and the operating system
    lets the rejected files be removed. *)
Theorem clean_purge_deletes_rejected self w tr va te :
  _indices self
  = [(DATASET_TRAIN, tr); (DATASET_VAL, va); (DATASET_TEST, te)] ->
  (forall p, In p (tr ++ va ++ te) -> decodable (fs w) p) ->
  NoDup (tr ++ va ++ te) ->
  deletable_rejects (fs w) (tr ++ va ++ te) ->
  exists s' w',
    _clean self CLEAN_PURGE w = (Ok s', w')
    /\ _indices s'
       = [(DATASET_TRAIN, filter (decodes_to_rgb (fs w)) tr);
          (DATASET_VAL, filter (decodes_to_rgb (fs w)) va);
          (DATASET_TEST, filter (decodes_to_rgb (fs w)) te)]
    /\ same_attributes s' self
    /\ (exists s0 w0,
           _clean self CLEAN_SKIP w = (Ok s0, w0)
           /\ _indices s0 = _indices s')
    /\ (forall p, In p (tr ++ va ++ te) ->
                  decodes_to_rgb (fs w) p = false ->
                  node_at (fs w') p = None)
    /\ (forall p, decodes_to_rgb (fs w) p = true ->
                  node_at (fs w') p = node_at (fs w) p)
    /\ (forall p, ~ In p (tr ++ va ++ te) ->
                  node_at (fs w') p = node_at (fs w) p).
Proof.
  intros Hi Hdec Hnd Hrm.
  destruct (clean_three_splits true self w tr va te Hi Hdec
              (fun _ => Hnd) (fun _ => Hrm))
    as (s' & w' & E & Hidx & Hattr & Hc).
  destruct (clean_three_splits false self w tr va te Hi Hdec)
    as (s0 & w0 & E0 & Hidx0 & _ & _); [discriminate | discriminate |].
  simpl in E, E0, Hc. exists s', w'. split; [exact E|].
  split; [exact Hidx|]. split; [exact Hattr|].
  split; [exists s0, w0; split; [exact E0 | congruence]|].
  split; [|split].
  - intros p Hin Hd. rewrite Hc. unfold rejected. rewrite Hd.
    assert (Ex : existsb (String.eqb p) (tr ++ va ++ te) = true).
    { apply existsb_exists. exists p. split; [exact Hin|].
      apply String.eqb_refl. }
    now rewrite Ex.
  - intros p Hd. rewrite Hc. unfold rejected. rewrite Hd.
    now rewrite andb_false_r.
  - intros p Hn. rewrite Hc. now rewrite rejected_not_in.
Qed.

(* ================================================================== *)
(** ** The statements on the example dataset *)

Lemma example_decodable p :
  In p (all_paths Example.indices) -> decodable Example.disk p.
Proof.
  unfold all_paths. simpl. intros Hp.
  repeat (destruct Hp as [<-|Hp]; [eexists; reflexivity|]).
  destruct Hp.
Qed.

Lemma example_nodup : NoDup (all_paths Example.indices).
Proof.
  unfold all_paths. simpl.
  repeat (constructor; [simpl; intuition discriminate|]). constructor.
Qed.

Lemma example_deletable : deletable_rejects Example.disk (all_paths Example.indices).
Proof. intros p _ _. reflexivity. Qed.

Lemma clean_skip_filters_all_splits_witness :
  exists s' w',
    _clean (Example.handle "val" 64 None) CLEAN_SKIP Example.world
    = (Ok s', w')
    /\ _indices s'
       = [("train",
           ["/d/train/n01/images/n01_10.JPEG";
            "/d/train/n02/images/n02_0.JPEG"]);
          ("val", snd (nth 1 Example.indices ("", [])));
          ("test", ["/d/test/images/test_0.JPEG"])]
    /\ same_attributes s' (Example.handle "val" 64 None)
    /\ fs w' = Example.disk.
Proof.
  apply (clean_skip_filters_all_splits (Example.handle "val" 64 None)
           Example.world
           (snd (nth 0 Example.indices ("", [])))
           (snd (nth 1 Example.indices ("", [])))
           (snd (nth 2 Example.indices ("", [])))).
  - reflexivity.
  - intros p Hp. apply example_decodable.
    unfold all_paths. simpl. simpl in Hp. exact Hp.
Defined.

Lemma clean_purge_deletes_rejected_witness :
  exists s' w',
    _clean (Example.handle "val" 64 None) CLEAN_PURGE Example.world
    = (Ok s', w')
    /\ _indices s'
       = [("train",
           ["/d/train/n01/images/n01_10.JPEG";
            "/d/train/n02/images/n02_0.JPEG"]);
          ("val", snd (nth 1 Example.indices ("", [])));
          ("test", ["/d/test/images/test_0.JPEG"])]
    /\ node_at (fs w') "/d/train/n01/images/n01_2.JPEG" = None
    /\ node_at (fs w') "/d/test/images/test_1.JPEG" = None
    /\ node_at (fs w') "/d/train/n01/images/n01_10.JPEG"
       = Some (ImageFile Example.rgb64).
Proof.
  destruct (clean_purge_deletes_rejected (Example.handle "val" 64 None)
              Example.world
              (snd (nth 0 Example.indices ("", [])))
              (snd (nth 1 Example.indices ("", [])))
              (snd (nth 2 Example.indices ("", []))))
    as (s' & w' & E & Hidx & _ & _ & Hgone & Hkept & _).
  - reflexivity.
  - intros p Hp. apply example_decodable.
    unfold all_paths. simpl. simpl in Hp. exact Hp.
  - exact example_nodup.
  - intros p Hp. apply example_deletable.
    unfold all_paths. simpl. simpl in Hp. exact Hp.
  - exists s', w'. split; [exact E|]. split; [exact Hidx|].
    split; [|split].
    + apply Hgone; [simpl; tauto | reflexivity].
    + apply Hgone; [simpl; tauto | reflexivity].
    + rewrite Hkept; reflexivity.
Defined.

Lemma len_of_constructed_witness :
  exists index_list,
    Py.dict_get
      (_indices
         (with_limit (Example.handle "val" 64 None) (Some 4)))
      "val" = Ok index_list
    /\ limit (with_limit (Example.handle "val" 64 None) (Some 4)) = Some 4
    /\ __len__ (with_limit (Example.handle "val" 64 None) (Some 4))
       = Ok (Z.min 4 (Z.of_nat (List.length index_list))).
Proof.
  apply (len_of_constructed "/d" "val" 64 float32 (Some 4) "assume" tt
           Example.world
           (with_limit (Example.handle "val" 64 None) (Some 4))
           Example.world).
  reflexivity.
Defined.

Lemma init_configuration_errors_witness :
  (exists e,
      fst (__init__ "/nowhere" "val" 64 float32 None "assume" tt
             Example.world) = Raise e)
  /\ (forall e,
         fst (__init__ "/d" "val" 64 float32 None "skip" tt Example.world)
         = Raise e ->
         ~ configuration_error e).
Proof.
  split.
  - apply (proj1 (init_configuration_errors "/nowhere" "val" 64 float32 None
                    "assume" tt Example.world)).
    left. reflexivity.
  - apply (proj2 (init_configuration_errors "/d" "val" 64 float32 None
                    "skip" tt Example.world)).
    + reflexivity.
    + simpl. tauto.
    + unfold IMAGE_SIZE_ACTUAL. lia.
    + simpl. tauto.
Defined.

(* ================================================================== *)
(** ** Listings: the plain order, names without a number, ties *)

Local Open Scope string_scope.
Local Open Scope Z_scope.

Lemma ltb_leb s t : String.ltb s t = true -> String.leb s t = true.
Proof.
  unfold String.ltb, String.leb. now destruct (s ?= t)%string.
Qed.

Lemma ltb_false_leb s t : String.ltb s t = false -> String.leb t s = true.
Proof.
  unfold String.ltb, String.leb. rewrite (String.compare_antisym t s).
  now destruct (s ?= t)%string.
Qed.

Lemma leb_trans s t u :
  String.leb s t = true -> String.leb t u = true -> String.leb s u = true.
Proof.
  unfold String.leb.
  destruct (s ?= t)%string eqn:E1; [| |discriminate];
    destruct (t ?= u)%string eqn:E2; try discriminate; intros _ _.
  - apply String.compare_eq_iff in E1. subst. now rewrite E2.
  - apply String.compare_eq_iff in E1. subst. now rewrite E2.
  - apply String.compare_eq_iff in E2. subst. now rewrite E1.
  - apply String_as_OT.cmp_lt in E1, E2.
    pose proof (String_as_OT.lt_trans _ _ _ E1 E2) as H.
    apply String_as_OT.cmp_lt in H. unfold String_as_OT.cmp in H.
    now rewrite H.
Qed.

(** X1.  [_listdir] without [sort_num] never fails and leaves the world as
    it was: it returns the listing rearranged into ascending order of the
    path strings, compared code point by code point. *)
Theorem listdir_plain_sorted path w :
  exists files,
    _listdir path false w = (Ok files, w)
    /\ Permutation (glob_of (fs w) (Py.path_join path "*")) files
    /\ StronglySorted (fun a b => String.leb a b = true) files.
Proof.
  exists (Py.sort String.ltb (glob_of (fs w) (Py.path_join path "*"))).
  split; [reflexivity|]. split.
  - apply sort_perm.
  - apply sort_sorted.
    + apply ltb_leb.
    + apply ltb_false_leb.
    + apply leb_trans.
Qed.

Lemma str_take_drop i s : Py.str_take i s ++ Py.str_drop i s = s.
Proof.
  revert s. induction i as [|i IH]; intros s; [reflexivity|].
  destruct s as [|c s]; [reflexivity|]. simpl. now rewrite IH.
Qed.

Lemma digits_eol_shape t :
  Py.digits_eol t = true ->
  exists d,
    all_digits d = true
    /\ (t = d \/ t = d ++ String Py.newline EmptyString).
Proof.
  induction t as [|c t IH]; simpl.
  - intros _. exists EmptyString. auto.
  - destruct (Py.is_digit c) eqn:Ec.
    + intros E. destruct (IH E) as (d & Hd & Ht).
      exists (String c d). simpl. rewrite Ec, Hd. split; [reflexivity|].
      destruct Ht as [->| ->]; auto.
    + intros E. apply andb_prop in E as [E1 E2].
      apply Ascii.eqb_eq in E1. apply String.eqb_eq in E2. subst.
      exists EmptyString. auto.
Qed.

Lemma match_digits_eol_shape t :
  Py.match_digits_eol t = true ->
  exists d,
    d <> EmptyString /\ all_digits d = true
    /\ (t = d \/ t = d ++ String Py.newline EmptyString).
Proof.
  destruct t as [|c t]; [discriminate|]. simpl. intros E.
  apply andb_prop in E as [Ec Et].
  destruct (digits_eol_shape t Et) as (d & Hd & Ht).
  exists (String c d). simpl. rewrite Ec, Hd.
  split; [discriminate|]. split; [reflexivity|].
  destruct Ht as [->| ->]; auto.
Qed.

Lemma digits_eol_newline d :
  all_digits d = true ->
  Py.digits_eol (d ++ String Py.newline EmptyString) = true.
Proof.
  induction d as [|c d IH]; simpl; [reflexivity|].
  intros E. apply andb_prop in E as [E1 E2]. rewrite E1. auto.
Qed.

Lemma match_digits_newline d :
  d <> EmptyString -> all_digits d = true ->
  Py.match_digits_eol (d ++ String Py.newline EmptyString) = true.
Proof.
  destruct d as [|c d]; [congruence|]. simpl. intros _ E.
  apply andb_prop in E as [E1 E2]. rewrite E1. simpl.
  now apply digits_eol_newline.
Qed.

Lemma search_finds_match p t :
  Py.match_digits_eol t = true -> Py.re_search_digits_eol (p ++ t) <> None.
Proof.
  intros Ht. induction p as [|c p IH].
  - simpl. destruct t as [|c t]; [discriminate|].
    change (Py.re_search_digits_eol (String c t))
      with (if Py.match_digits_eol (String c t) then Some O
            else option_map S (Py.re_search_digits_eol t)).
    rewrite Ht. discriminate.
  - change (Py.re_search_digits_eol (String c p ++ t))
      with (if Py.match_digits_eol (String c (p ++ t)) then Some O
            else option_map S (Py.re_search_digits_eol (p ++ t))).
    destruct (Py.match_digits_eol (String c (p ++ t))); [discriminate|].
    destruct (Py.re_search_digits_eol (p ++ t)); [discriminate|].
    congruence.
Qed.

Lemma search_iff_ends_in_number stem :
  Py.re_search_digits_eol stem <> None <-> ends_in_number stem.
Proof.
  split.
  - destruct (Py.re_search_digits_eol stem) as [i|] eqn:E; [|congruence].
    intros _.
    destruct (match_digits_eol_shape _ (search_gives_match _ _ E))
      as (d & Hd & Ha & Ht).
    exists (Py.str_take i stem), d. split; [exact Hd|]. split; [exact Ha|].
    destruct Ht as [Ht|Ht]; [left|right]; rewrite <- Ht; symmetry;
      apply str_take_drop.
  - intros (p & d & Hd & Ha & [-> | ->]); apply search_finds_match.
    + now apply all_digits_match.
    + now apply match_digits_newline.
Qed.

(** X2.  [parse_num] returns a key exactly for the names whose stem (the
    name up to its last dot) ends in a run of decimal digits, possibly
    followed by one newline; for every other name it raises the
    [AttributeError] of calling [start] on [None], and nothing else. *)
Theorem parse_num_succeeds_iff f :
  ((exists k, parse_num f = Ok k)
   <-> ends_in_number (Py.rsplit_dot_head f))
  /\ (forall e, parse_num f = Raise e -> e = no_match_error).
Proof.
  unfold parse_num. rewrite <- search_iff_ends_in_number.
  destruct (Py.re_search_digits_eol (Py.rsplit_dot_head f)) as [i|] eqn:E.
  - destruct (int_of_match _ (search_gives_match _ _ E)) as [n Hn].
    rewrite Hn. simpl. split; [|discriminate].
    split; [discriminate | eauto].
  - split; [|now intros e [= <-]].
    split; [intros [k Hk]; discriminate | congruence].
Qed.

Lemma parse_num_raise f e : parse_num f = Raise e -> e = no_match_error.
Proof.
  unfold parse_num.
  destruct (Py.re_search_digits_eol (Py.rsplit_dot_head f)) as [i|] eqn:E.
  - destruct (int_of_match _ (search_gives_match _ _ E)) as [n Hn].
    rewrite Hn. discriminate.
  - now intros [= <-].
Qed.

Lemma parse_num_unnumbered f :
  ~ ends_in_number (Py.rsplit_dot_head f) -> parse_num f = Raise no_match_error.
Proof.
  intros Hn. unfold parse_num.
  destruct (Py.re_search_digits_eol (Py.rsplit_dot_head f)) eqn:E;
    [|reflexivity].
  exfalso. apply Hn, search_iff_ends_in_number. congruence.
Qed.

Lemma mapM_raises {A B} (f : A -> result B) l x e :
  In x l -> f x = Raise e -> exists e', Res.mapM f l = Raise e'.
Proof.
  induction l as [|y l IH]; simpl; [tauto|].
  intros [->|Hin] Hx.
  - rewrite Hx. simpl. eauto.
  - destruct (f y) as [b|e0]; simpl; [|eauto].
    destruct (IH Hin Hx) as [e' ->]. simpl. eauto.
Qed.

(** X3.  One listed name without a trailing number makes [_listdir] with
    [sort_num] fail as a whole: it raises the [AttributeError] of
    [parse_num], returns no list, and leaves the world as it was. *)
Theorem listdir_numeric_unnumbered path w f :
  In f (glob_of (fs w) (Py.path_join path "*")) ->
  ~ ends_in_number (Py.rsplit_dot_head f) ->
  _listdir path true w = (Raise no_match_error, w).
Proof.
  intros Hin Hn. unfold _listdir, bind, glob, lift, Py.sort_by_key.
  destruct (mapM_raises parse_num _ f _ Hin (parse_num_unnumbered f Hn))
    as [e He].
  rewrite He. simpl.
  destruct (mapM_error _ _ _ He) as (x & _ & Hx).
  now rewrite (parse_num_raise x e Hx).
Qed.

Lemma readme_not_numbered : ~ ends_in_number "/d/val/images/readme".
Proof.
  intros H. apply search_iff_ends_in_number in H. now apply H.
Qed.

Lemma listdir_numeric_unnumbered_witness :
  _listdir "/d/val/images" true
    (listing_world ["/d/val/images/val_0.JPEG"; "/d/val/images/readme.txt"])
  = (Raise no_match_error,
     listing_world ["/d/val/images/val_0.JPEG"; "/d/val/images/readme.txt"]).
Proof.
  apply (listdir_numeric_unnumbered "/d/val/images"
           (listing_world
              ["/d/val/images/val_0.JPEG"; "/d/val/images/readme.txt"])
           "/d/val/images/readme.txt").
  - simpl. tauto.
  - exact readme_not_numbered.
Defined.

(** *** Ties keep the order of the listing *)

Section Stability.
Context {A : Type} (lt : A -> A -> bool) (p : A -> bool).
Hypothesis no_lt : forall x y, p x = true -> p y = true -> lt x y = false.

Lemma insert_filter x l :
  filter p (Py.insert lt x l) = filter p (x :: l).
Proof.
  induction l as [|y l IH]; [reflexivity|].
  simpl Py.insert. destruct (lt y x) eqn:E; [|reflexivity].
  change (filter p (y :: Py.insert lt x l))
    with (if p y then y :: filter p (Py.insert lt x l)
          else filter p (Py.insert lt x l)).
  rewrite IH. simpl.
  destruct (p y) eqn:Ey; destruct (p x) eqn:Ex; try reflexivity.
  rewrite (no_lt y x Ey Ex) in E. discriminate.
Qed.

Lemma sort_filter l : filter p (Py.sort lt l) = filter p l.
Proof.
  induction l as [|x l IH]; [reflexivity|].
  simpl Py.sort. rewrite insert_filter. simpl. now rewrite IH.
Qed.
End Stability.

Lemma has_key_no_lt k a b :
  has_key k a = true -> has_key k b = true ->
  Py.key_lt (spec_key a) (spec_key b) = false.
Proof.
  unfold has_key, Py.key_lt. intros Ha Hb.
  apply andb_prop in Ha as [Ha1 Ha2]. apply andb_prop in Hb as [Hb1 Hb2].
  apply String.eqb_eq in Ha1, Hb1. apply Z.eqb_eq in Ha2, Hb2.
  rewrite Ha1, Hb1, Ha2, Hb2.
  unfold String.ltb.
  assert (E : (fst k ?= fst k)%string = Eq)
    by (apply String_as_OT.cmp_eq; reflexivity).
  unfold String_as_OT.cmp in E. rewrite E, Z.ltb_irrefl.
  now rewrite andb_false_r.
Qed.

(** X4.  The numeric sort of [_listdir] is stable: the names that share a
    key (same prefix, same number, as img_01 and img_1 do) come out in the
    order in which the listing gave them. *)
Theorem listdir_numeric_stable w path names :
  Forall well_formed_name names ->
  glob_of (fs w) (Py.path_join path "*") = map file_name names ->
  exists sorted,
    _listdir path true w = (Ok (map file_name sorted), w)
    /\ forall k, filter (has_key k) sorted = filter (has_key k) names.
Proof.
  intros Hwf Hglob.
  exists (Py.sort (fun a b => Py.key_lt (spec_key a) (spec_key b)) names).
  split.
  - unfold _listdir, bind, glob, lift. rewrite Hglob.
    now rewrite (sort_by_key_names names Hwf).
  - intros k. apply sort_filter. apply has_key_no_lt.
Qed.

Lemma listdir_numeric_stable_witness :
  exists sorted,
    _listdir "" true (listing_world (map file_name tied_names))
    = (Ok (map file_name sorted), listing_world (map file_name tied_names))
    /\ forall k, filter (has_key k) sorted = filter (has_key k) tied_names.
Proof.
  apply (listdir_numeric_stable (listing_world (map file_name tied_names))
           "" tied_names).
  - repeat constructor; simpl; congruence.
  - reflexivity.
Defined.

(* ================================================================== *)
(** ** Building the indices *)

Lemma listing_only_bind {A B} (m : M A) (k : A -> M B) :
  listing_only m -> (forall a, listing_only (k a)) ->
  listing_only (bind m k).
Proof.
  intros Hm Hk w. unfold bind. destruct (Hm w) as [Hw He].
  destruct (m w) as [[a|e] w1]; simpl in Hw; subst w1.
  - apply Hk.
  - split; [reflexivity|]. intros e' [= <-]. now apply He.
Qed.

Lemma listing_only_ret {A} (a : A) : listing_only (ret a).
Proof. intros w. split; [reflexivity | discriminate]. Qed.

Lemma listdir_listing_only path sort_num :
  listing_only (_listdir path sort_num).
Proof.
  intros w. unfold _listdir, bind, glob, lift, ret.
  destruct sort_num; [|split; [reflexivity | discriminate]].
  split; [reflexivity|]. simpl. intros e E.
  unfold Py.sort_by_key in E.
  destruct (Res.mapM parse_num _) as [ks|e'] eqn:Em; simpl in E;
    [discriminate|].
  injection E as <-.
  destruct (mapM_error _ _ _ Em) as (x & _ & Hx).
  exact (parse_num_raise x e' Hx).
Qed.

Lemma build_train_listing_only classes index_list :
  listing_only (build_train classes index_list).
Proof.
  revert index_list. induction classes as [|c classes IH];
    intros index_list; [apply listing_only_ret|].
  simpl. apply listing_only_bind; [apply listdir_listing_only|].
  intros files. apply IH.
Qed.

Lemma build_index_listing_only self dataset :
  listing_only (_build_index self dataset).
Proof.
  unfold _build_index. destruct (String.eqb dataset DATASET_TRAIN).
  - apply listing_only_bind; [apply listdir_listing_only|].
    intros classes.
    apply listing_only_bind; [apply build_train_listing_only|].
    intros l. apply listing_only_ret.
  - apply listing_only_bind; [apply listdir_listing_only|].
    intros l. apply listing_only_ret.
Qed.

Lemma build_indices_listing_only self : listing_only (_build_indices self).
Proof.
  unfold _build_indices.
  apply listing_only_bind; [apply build_index_listing_only|]. intros s1.
  apply listing_only_bind; [apply build_index_listing_only|]. intros s2.
  apply build_index_listing_only.
Qed.

Lemma build_train_concat (files : string -> list string) classes :
  forall index_list w,
    (forall c, In c classes ->
               _listdir (Py.path_join c "images") true w = (Ok (files c), w)) ->
    build_train classes index_list w
    = (Ok (index_list ++ concat (map files classes))%list, w).
Proof.
  induction classes as [|c classes IH]; intros index_list w Hc.
  - simpl. now rewrite app_nil_r.
  - change (build_train (c :: classes) index_list w)
      with (bind (_listdir (Py.path_join c "images") true)
              (fun l => build_train classes (index_list ++ l)%list) w).
    unfold bind. rewrite (Hc c (or_introl eq_refl)).
    rewrite IH; [|intros c' Hin; apply Hc; now right].
    simpl. now rewrite <- app_assoc.
Qed.

Lemma dict_set_twice {V} (d : Py.dict V) k v v' :
  Py.dict_set (Py.dict_set d k v) k v' = Py.dict_set d k v'.
Proof.
  induction d as [|[k0 v0] d IH]; simpl.
  - now rewrite String.eqb_refl.
  - destruct (String.eqb_spec k0 k) as [->|Hne]; simpl.
    + now rewrite String.eqb_refl.
    + destruct (String.eqb_spec k0 k); [congruence|]. now rewrite IH.
Qed.

Lemma dict_get_set {V} (d : Py.dict V) k v :
  Py.dict_get (Py.dict_set d k v) k = Ok v.
Proof.
  induction d as [|[k0 v0] d IH]; simpl.
  - now rewrite String.eqb_refl.
  - destruct (String.eqb_spec k0 k) as [->|Hne]; simpl.
    + now rewrite String.eqb_refl.
    + destruct (String.eqb_spec k0 k); [congruence | exact IH].
Qed.

(** X5.  [_build_index] for the train split returns an instance whose
    train index is the concatenation of the numerically sorted image lists
    of the class directories, taken in the order in which the plain
    listing of the train directory returns them (ascending, by X1); the
    other entries of the dictionary, the other attributes and the world
    are as they were. *)
Theorem build_index_train_concat self w classes
    (files : string -> list string) :
  _listdir (Py.path_join (_root self) DATASET_TRAIN) false w
  = (Ok classes, w) ->
  (forall c, In c classes ->
             _listdir (Py.path_join c "images") true w = (Ok (files c), w)) ->
  exists s,
    _build_index self DATASET_TRAIN w = (Ok s, w)
    /\ Py.dict_get (_indices s) DATASET_TRAIN
       = Ok (concat (map files classes))
    /\ _indices s
       = Py.dict_set (_indices self) DATASET_TRAIN
           (concat (map files classes))
    /\ same_attributes s self.
Proof.
  intros Hcl Hfiles.
  exists (with_indices self
            (Py.dict_set (_indices self) DATASET_TRAIN
               (concat (map files classes)))).
  split; [|split; [|split]].
  - unfold _build_index.
    change (String.eqb DATASET_TRAIN DATASET_TRAIN) with true. cbv iota.
    unfold bind at 1. cbn [_root with_indices]. rewrite Hcl.
    unfold bind at 1. rewrite (build_train_concat files classes [] w Hfiles).
    unfold ret. cbn [_indices with_indices app].
    now rewrite dict_set_twice.
  - cbn [_indices with_indices]. apply dict_get_set.
  - reflexivity.
  - repeat split.
Qed.

Lemma build_index_train_concat_witness :
  exists s,
    _build_index (Example.handle "val" 64 None) DATASET_TRAIN Example.world
    = (Ok s, Example.world)
    /\ Py.dict_get (_indices s) "train"
       = Ok ["/d/train/n01/images/n01_2.JPEG";
             "/d/train/n01/images/n01_10.JPEG";
             "/d/train/n02/images/n02_0.JPEG"].
Proof.
  destruct (build_index_train_concat (Example.handle "val" 64 None)
              Example.world ["/d/train/n01"; "/d/train/n02"]
              (fun c =>
                 match
                   fst (_listdir (Py.path_join c "images") true
                          Example.world)
                 with
                 | Ok l => l
                 | Raise _ => []
                 end))
    as (s & E & Hget & _).
  - reflexivity.
  - intros c [<-|[<-|[]]]; reflexivity.
  - exists s. split; [exact E | exact Hget].
Defined.

(** X6.  [_build_indices] only reads directory listings: whether it
    succeeds or fails it leaves the world as it was (nothing is decoded or
    removed), the only error it raises is the one of [parse_num], and on
    success the dictionary holds exactly the keys train, val, test, in this
    order, whatever it held before, with the other attributes untouched. *)
Theorem build_indices_reads_listings_only self w :
  snd (_build_indices self w) = w
  /\ (forall e, fst (_build_indices self w) = Raise e -> e = no_match_error)
  /\ (forall s,
         fst (_build_indices self w) = Ok s ->
         same_config s self /\ Py.keys (_indices s) = valid_datasets).
Proof.
  destruct (build_indices_listing_only self w) as [Hw He].
  split; [exact Hw|]. split; [exact He|].
  intros s Hs. pose proof (build_indices_outcome self w) as Ho.
  unfold outcome in Ho.
  destruct (_build_indices self w) as [[s'|e] w']; simpl in Hs;
    [|discriminate].
  injection Hs as ->. destruct Ho as (_ & tr & va & te & ->).
  split; reflexivity.
Qed.

(** X7.  Unless the cleaning mode is skip or purge, [__init__] leaves the
    world as it was, whether it returns an instance or raises: no file is
    decoded and none is removed.  In mode assume, with a directory as root,
    a known split and a size of at least 64, its result is the result of
    [_build_indices]. *)
Theorem init_without_filter_reads_only {T} root dataset image_size dt lim
    clean (t : T) w :
  clean <> CLEAN_SKIP -> clean <> CLEAN_PURGE ->
  snd (__init__ root dataset image_size dt lim clean t w) = w
  /\ (clean = CLEAN_ASSUME ->
      is_directory (fs w) root = true ->
      In dataset valid_datasets ->
      IMAGE_SIZE_ACTUAL <= image_size ->
      fst (__init__ root dataset image_size dt lim clean t w)
      = fst (_build_indices
               (configured root dataset image_size dt lim) w)).
Proof.
  intros Hs Hp. rewrite init_unfold.
  assert (Hclean : forall s w1, snd (_clean s clean w1) = w1).
  { intros s w1. unfold _clean.
    destruct (String.eqb_spec clean CLEAN_SKIP); [congruence|].
    destruct (String.eqb_spec clean CLEAN_PURGE); [congruence|].
    now destruct (String.eqb clean CLEAN_ASSUME). }
  pose proof (build_indices_listing_only
                (configured root dataset image_size dt lim) w) as [Hw _].
  split.
  - destruct (is_directory (fs w) root); [|reflexivity].
    destruct (existsb (String.eqb dataset) valid_datasets); [|reflexivity].
    destruct (IMAGE_SIZE_ACTUAL <=? image_size); [|reflexivity].
    cbn [negb]. cbv iota. unfold bind.
    destruct (_build_indices _ w) as [[s|e] w1]; simpl in Hw; subst w1.
    + apply Hclean.
    + reflexivity.
  - intros -> Hr Hd Hsz. rewrite Hr.
    apply valid_dataset_iff in Hd. rewrite Hd.
    apply Z.leb_le in Hsz. rewrite Hsz. cbn [negb]. cbv iota.
    unfold bind.
    destruct (_build_indices _ w) as [[s|e] w1]; reflexivity.
Qed.

Lemma init_without_filter_reads_only_witness :
  snd (__init__ "/d" "val" 64 float32 None "assume" tt Example.world)
  = Example.world
  /\ fst (__init__ "/d" "val" 64 float32 None "assume" tt Example.world)
     = fst (_build_indices (configured "/d" "val" 64 float32 None)
              Example.world).
Proof.
  destruct (init_without_filter_reads_only "/d" "val" 64 float32 None
              "assume" tt Example.world) as [Hw Hr];
    [discriminate | discriminate |].
  split; [exact Hw|].
  apply Hr; [reflexivity | reflexivity | simpl; tauto |].
  unfold IMAGE_SIZE_ACTUAL. lia.
Defined.

(* ================================================================== *)
(** ** The cleaning pass: what it removes and what it keeps *)

Local Open Scope list_scope.

Lemma removed_within_refl f paths : removed_within f paths f.
Proof. intros p. now left. Qed.

Lemma removed_within_mono f l l' f' :
  removed_within f l f' -> incl l l' -> removed_within f l' f'.
Proof.
  intros H Hi p. destruct (H p) as [E|(E & Hin & Ha)]; [now left|].
  right. split; [exact E|]. split; [now apply Hi | exact Ha].
Qed.

Lemma removed_within_trans f l1 f1 l2 f2 :
  removed_within f l1 f1 -> removed_within f1 l2 f2 ->
  removed_within f (l1 ++ l2)%list f2.
Proof.
  intros H1 H2 p.
  destruct (H2 p) as [E2|(E2 & Hin2 & a & Ha & Hrgb)].
  - destruct (H1 p) as [E1|(E1 & Hin1 & Ha1)].
    + left. congruence.
    + right. split; [congruence|].
      split; [apply in_or_app; now left | exact Ha1].
  - destruct (H1 p) as [E1|(E1 & _)]; [|congruence].
    right. split; [exact E2|]. split; [apply in_or_app; now right|].
    exists a. split; [congruence | exact Hrgb].
Qed.

Lemma removed_within_unlink f path a :
  node_at f path = Some (ImageFile a) -> _is_rgb a = false ->
  removed_within f [path] (unlink path f).
Proof.
  intros Ha Hrgb p. simpl.
  destruct (String.eqb_spec p path) as [->|Hne]; [|now left].
  right. split; [reflexivity|]. split; [now left|]. now exists a.
Qed.

Lemma removed_within_keeps_rgb f l f' p :
  removed_within f l f' ->
  decodes_to_rgb f p = true -> decodes_to_rgb f' p = true.
Proof.
  intros H Hd. destruct (H p) as [E|(_ & _ & a & Ha & Hrgb)].
  - now rewrite (decodes_to_rgb_ext f f' p E).
  - unfold decodes_to_rgb in Hd. rewrite Ha in Hd. congruence.
Qed.

Lemma removed_within_rgb_before f l f' p :
  removed_within f l f' ->
  decodes_to_rgb f' p = true -> decodes_to_rgb f p = true.
Proof.
  intros H Hd. destruct (H p) as [E|(E & _)].
  - now rewrite <- (decodes_to_rgb_ext f f' p E).
  - unfold decodes_to_rgb in Hd. rewrite E in Hd. discriminate.
Qed.

Lemma filter_index_removed purge index_list :
  forall acc w,
    removed_within (fs w) index_list
      (fs (snd (filter_index purge index_list acc w))).
Proof.
  induction index_list as [|path rest IH]; intros acc w.
  - apply removed_within_refl.
  - assert (Hrest : forall acc' w',
               fs w' = fs w ->
               removed_within (fs w) (path :: rest)
                 (fs (snd (filter_index purge rest acc' w')))).
    { intros acc' w' E. rewrite <- E.
      eapply removed_within_mono; [apply IH|].
      intros x Hx. now right. }
    simpl filter_index. unfold bind at 1. unfold imread.
    destruct (node_at (fs w) path) as [[|a|]|] eqn:Ha;
      try apply removed_within_refl.
    destruct (_is_rgb a) eqn:Hrgb; [now apply Hrest|].
    destruct purge; [|now apply Hrest].
    unfold bind at 1. unfold remove. simpl fs. rewrite Ha.
    destruct (can_remove (fs w) path); [|apply removed_within_refl].
    change (path :: rest) with ([path] ++ rest)%list.
    eapply removed_within_trans;
      [apply (removed_within_unlink _ _ a Ha Hrgb) | apply IH].
Qed.

Lemma filter_items_removed purge items :
  forall self w,
    removed_within (fs w) (all_paths items)
      (fs (snd (filter_items purge items self w))).
Proof.
  induction items as [|[k l] items IH]; intros self w.
  - apply removed_within_refl.
  - change (all_paths ((k, l) :: items)) with (l ++ all_paths items)%list.
    simpl filter_items. unfold bind at 1.
    pose proof (filter_index_removed purge l [] w) as H1.
    destruct (filter_index purge l [] w) as [[new|e] w1]; simpl in H1.
    + eapply removed_within_trans; [exact H1 | apply IH].
    + eapply removed_within_mono; [exact H1|].
      intros x Hx. apply in_or_app. now left.
Qed.

(** X8.  Whatever the mode and whether it succeeds or fails, [_clean]
    removes nothing but indexed files that decode to an array failing
    [_is_rgb]: every other path names afterwards what it named before. *)
Theorem clean_removes_only_rejected self clean w :
  removed_within (fs w) (all_paths (_indices self))
    (fs (snd (_clean self clean w))).
Proof.
  unfold _clean, _filter_non_rgb.
  destruct (String.eqb clean CLEAN_SKIP); [apply filter_items_removed|].
  destruct (String.eqb clean CLEAN_PURGE); [apply filter_items_removed|].
  destruct (String.eqb clean CLEAN_ASSUME); apply removed_within_refl.
Qed.

Lemma decodes_unlink path f p :
  decodes_to_rgb (unlink path f) p = true -> decodes_to_rgb f p = true.
Proof.
  unfold decodes_to_rgb. simpl.
  destruct (String.eqb p path); [discriminate | auto].
Qed.

Lemma filter_index_kept purge index_list :
  forall acc w res w',
    filter_index purge index_list acc w = (Ok res, w') ->
    forall p, In p res -> In p acc \/ decodes_to_rgb (fs w) p = true.
Proof.
  induction index_list as [|path rest IH]; intros acc w res w'.
  - intros [= <- _] p Hp. now left.
  - simpl filter_index. unfold bind at 1. unfold imread.
    destruct (node_at (fs w) path) as [[|a|]|] eqn:Ha; try discriminate.
    destruct (_is_rgb a) eqn:Hrgb.
    + intros E p Hp. destruct (IH _ _ _ _ E p Hp) as [Hin|Hd].
      * apply in_app_or in Hin as [Hin|[<-|[]]]; [now left|].
        right. unfold decodes_to_rgb. now rewrite Ha.
      * now right.
    + destruct purge; [|intros E p Hp; exact (IH _ _ _ _ E p Hp)].
      unfold bind at 1. unfold remove. simpl fs. rewrite Ha.
      destruct (can_remove (fs w) path); [|discriminate].
      intros E p Hp. destruct (IH _ _ _ _ E p Hp) as [Hin|Hd];
        [now left|].
      right. exact (decodes_unlink _ _ _ Hd).
Qed.

Lemma all_paths_app a b : all_paths (a ++ b) = (all_paths a ++ all_paths b)%list.
Proof. unfold all_paths. now rewrite map_app, concat_app. Qed.

Lemma filter_items_kept purge items :
  forall pre self w s' w',
    _indices self = (pre ++ items)%list ->
    NoDup (Py.keys (pre ++ items)) ->
    (forall p, In p (all_paths pre) -> decodes_to_rgb (fs w) p = true) ->
    filter_items purge items self w = (Ok s', w') ->
    forall p, In p (all_paths (_indices s')) ->
              decodes_to_rgb (fs w) p = true.
Proof.
  induction items as [|[k l] items IH]; intros pre self w s' w' Hi Hk Hpre.
  - intros [= <- _]. rewrite Hi, app_nil_r. exact Hpre.
  - simpl filter_items. unfold bind at 1.
    pose proof (filter_index_removed purge l [] w) as Hrem.
    pose proof (filter_index_kept purge l [] w) as Hkept.
    destruct (filter_index purge l [] w) as [[new|e] w1]; [|discriminate].
    simpl in Hrem. specialize (Hkept new w1 eq_refl).
    assert (Hkpre : ~ In k (Py.keys pre)).
    { unfold Py.keys in Hk. rewrite map_app in Hk. simpl in Hk.
      apply NoDup_remove_2 in Hk. intros Hin. apply Hk.
      apply in_or_app. now left. }
    rewrite Hi, (dict_set_middle pre items k l _ Hkpre).
    intros E p Hp.
    eapply removed_within_rgb_before; [exact Hrem|].
    apply (IH (pre ++ [(k, new)])
             (with_indices self (pre ++ (k, new) :: items)) w1 s' w');
      [| | | exact E | exact Hp].
    + simpl. now rewrite <- app_assoc.
    + rewrite <- app_assoc. simpl.
      unfold Py.keys in *. rewrite map_app in *. exact Hk.
    + intros q Hq. rewrite all_paths_app in Hq.
      eapply removed_within_keeps_rgb; [exact Hrem|].
      apply in_app_or in Hq as [Hq|Hq]; [now apply Hpre|].
      unfold all_paths in Hq. simpl in Hq. rewrite app_nil_r in Hq.
      destruct (Hkept q Hq) as [[]|Hd]. exact Hd.
Qed.

(** After a pass that filters and succeeds, every indexed path decodes to
    an RGB array on the disk the pass leaves. *)
Lemma clean_filtering_kept self (purge : bool) w s' w' :
  NoDup (Py.keys (_indices self)) ->
  _clean self (if purge then CLEAN_PURGE else CLEAN_SKIP) w = (Ok s', w') ->
  forall p, In p (all_paths (_indices s')) ->
            decodes_to_rgb (fs w') p = true.
Proof.
  intros Hk E p Hp.
  assert (E' : filter_items purge (_indices self) self w = (Ok s', w'))
    by (rewrite <- E; unfold _clean, _filter_non_rgb; now destruct purge).
  pose proof (filter_items_removed purge (_indices self) self w) as Hrem.
  rewrite E' in Hrem. simpl in Hrem.
  eapply removed_within_keeps_rgb; [exact Hrem|].
  apply (filter_items_kept purge (_indices self) [] self w s' w');
    try assumption; try reflexivity.
  intros q [].
Qed.

Lemma valid_datasets_nodup : NoDup valid_datasets.
Proof.
  unfold valid_datasets.
  repeat (constructor; [simpl; intuition discriminate|]). constructor.
Qed.

Lemma init_filtering_inv {T} root dataset image_size dt lim (purge : bool)
    (t : T) w self w' :
  __init__ root dataset image_size dt lim
    (if purge then CLEAN_PURGE else CLEAN_SKIP) t w = (Ok self, w') ->
  Py.keys (_indices self) = valid_datasets
  /\ forall p, In p (all_paths (_indices self)) ->
               decodes_to_rgb (fs w') p = true.
Proof.
  intros E.
  pose proof (init_ok_inv _ _ _ _ _ _ _ _ _ _ E) as (_ & _ & _ & _ & Hk).
  split; [exact Hk|].
  rewrite init_unfold in E.
  destruct (is_directory (fs w) root); [|discriminate].
  destruct (existsb (String.eqb dataset) valid_datasets); [|discriminate].
  destruct (IMAGE_SIZE_ACTUAL <=? image_size); [|discriminate].
  cbn [negb] in E. cbv iota in E. unfold bind in E.
  pose proof (build_indices_outcome
                (configured root dataset image_size dt lim) w) as Ho.
  unfold outcome in Ho.
  destruct (_build_indices _ w) as [[s0|e] w0]; [|discriminate].
  destruct Ho as (-> & tr & va & te & ->).
  apply (clean_filtering_kept
           (with_indices (configured root dataset image_size dt lim)
              [(DATASET_TRAIN, tr); (DATASET_VAL, va); (DATASET_TEST, te)])
           purge w self w'); [|exact E].
  exact valid_datasets_nodup.
Qed.

(** X9.  When [__init__] returns an instance in mode skip or purge, every
    path in the index of every split decodes to an array that passes
    [_is_rgb] on the disk as construction leaves it; no assumption on the
    files is needed, since success means every decode succeeded. *)
Theorem init_filtering_indexes_rgb_only {T} root dataset image_size dt lim
    clean (t : T) w self w' :
  clean = CLEAN_SKIP \/ clean = CLEAN_PURGE ->
  __init__ root dataset image_size dt lim clean t w = (Ok self, w') ->
  forall split index_list p,
    Py.dict_get (_indices self) split = Ok index_list ->
    In p index_list ->
    decodes_to_rgb (fs w') p = true.
Proof.
  intros Hc E split l p Hl Hp.
  assert (Hin : In p (all_paths (_indices self))).
  { revert Hl. generalize (_indices self). intros d.
    induction d as [|[k v] d IH]; simpl; [discriminate|].
    change (all_paths ((k, v) :: d)) with (v ++ all_paths d)%list.
    destruct (String.eqb k split).
    - intros [= ->]. apply in_or_app. now left.
    - intros Hd. apply in_or_app. right. now apply IH. }
  destruct Hc as [-> | ->].
  - exact (proj2 (init_filtering_inv _ _ _ _ _ false _ _ _ _ E) p Hin).
  - exact (proj2 (init_filtering_inv _ _ _ _ _ true _ _ _ _ E) p Hin).
Qed.

Lemma init_filtering_indexes_rgb_only_witness :
  decodes_to_rgb
    (fs (snd (__init__ "/d" "train" 64 float32 None "purge" tt
                Example.world)))
    "/d/train/n01/images/n01_10.JPEG" = true.
Proof.
  apply (init_filtering_indexes_rgb_only "/d" "train" 64 float32 None
           "purge" tt Example.world
           (with_indices (Example.handle "train" 64 None)
              [("train",
                ["/d/train/n01/images/n01_10.JPEG";
                 "/d/train/n02/images/n02_0.JPEG"]);
               ("val", snd (nth 1 Example.indices ("", [])));
               ("test", ["/d/test/images/test_0.JPEG"])])
           (snd (__init__ "/d" "train" 64 float32 None "purge" tt
                   Example.world))
           (or_intror eq_refl))
    with (split := "train")
         (index_list := ["/d/train/n01/images/n01_10.JPEG";
                         "/d/train/n02/images/n02_0.JPEG"]).
  - vm_compute. reflexivity.
  - reflexivity.
  - now left.
Defined.

Lemma filter_index_all_rgb purge index_list :
  forall acc w,
    (forall p, In p index_list -> decodes_to_rgb (fs w) p = true) ->
    exists w1,
      filter_index purge index_list acc w = (Ok (acc ++ index_list), w1)
      /\ fs w1 = fs w.
Proof.
  induction index_list as [|path rest IH]; intros acc w Hrgb.
  - exists w. simpl. now rewrite app_nil_r.
  - pose proof (Hrgb path (or_introl eq_refl)) as Hp.
    unfold decodes_to_rgb in Hp.
    destruct (node_at (fs w) path) as [[|a|]|] eqn:Ha; try discriminate.
    destruct (IH (acc ++ [path]) (log (EvImread path) w)) as (w1 & E & Hfs).
    { intros p Hin. apply Hrgb. now right. }
    exists w1. split; [|exact Hfs].
    simpl filter_index. unfold bind at 1. unfold imread.
    rewrite Ha, Hp, E, <- app_assoc. reflexivity.
Qed.

Lemma with_indices_same self : with_indices self (_indices self) = self.
Proof. now destruct self. Qed.

Lemma filter_items_all_rgb purge items :
  forall pre self w,
    _indices self = pre ++ items ->
    NoDup (Py.keys (pre ++ items)) ->
    (forall p, In p (all_paths items) -> decodes_to_rgb (fs w) p = true) ->
    exists w1,
      filter_items purge items self w = (Ok self, w1) /\ fs w1 = fs w.
Proof.
  induction items as [|[k l] items IH]; intros pre self w Hi Hk Hrgb.
  - exists w. split; reflexivity.
  - change (all_paths ((k, l) :: items)) with (l ++ all_paths items) in Hrgb.
    destruct (filter_index_all_rgb purge l [] w) as (w1 & E1 & Hfs1).
    { intros p Hp. apply Hrgb, in_or_app. now left. }
    assert (Hkpre : ~ In k (Py.keys pre)).
    { unfold Py.keys in Hk. rewrite map_app in Hk. simpl in Hk.
      apply NoDup_remove_2 in Hk. intros Hin. apply Hk.
      apply in_or_app. now left. }
    assert (Estep : filter_items purge ((k, l) :: items) self w
                    = filter_items purge items self w1).
    { simpl filter_items. unfold bind at 1. rewrite E1. simpl app.
      replace (Py.dict_set (_indices self) k l) with (_indices self);
        [now rewrite with_indices_same|].
      rewrite Hi. symmetry. now apply dict_set_middle. }
    rewrite Estep.
    destruct (IH (pre ++ [(k, l)]) self w1) as (w2 & E2 & Hfs2).
    + now rewrite <- app_assoc.
    + now rewrite <- app_assoc.
    + intros p Hp. rewrite Hfs1. apply Hrgb, in_or_app. now right.
    + exists w2. split; [exact E2 | congruence].
Qed.

(** X10.  An instance that [__init__] returned in mode skip or purge is a
    fixed point of the cleaning pass: running [_clean] on it again, in any
    of the three modes, succeeds, returns the instance unchanged and leaves
    the disk as it was. *)
Theorem clean_after_filtering_is_identity {T} root dataset image_size dt lim
    clean (t : T) w self w' mode :
  clean = CLEAN_SKIP \/ clean = CLEAN_PURGE ->
  __init__ root dataset image_size dt lim clean t w = (Ok self, w') ->
  In mode valid_cleanings ->
  exists w'', _clean self mode w' = (Ok self, w'') /\ fs w'' = fs w'.
Proof.
  intros Hc E Hm.
  assert (Hinv : Py.keys (_indices self) = valid_datasets
                 /\ forall p, In p (all_paths (_indices self)) ->
                              decodes_to_rgb (fs w') p = true).
  { destruct Hc as [-> | ->].
    - exact (init_filtering_inv _ _ _ _ _ false _ _ _ _ E).
    - exact (init_filtering_inv _ _ _ _ _ true _ _ _ _ E). }
  destruct Hinv as [Hk Hrgb].
  assert (Hnd : NoDup (Py.keys ([] ++ _indices self)))
    by (simpl; rewrite Hk; exact valid_datasets_nodup).
  unfold valid_cleanings in Hm. simpl in Hm.
  destruct Hm as [<-|[<-|[<-|[]]]].
  - exists w'. split; reflexivity.
  - exact (filter_items_all_rgb false (_indices self) [] self w'
             eq_refl Hnd Hrgb).
  - exact (filter_items_all_rgb true (_indices self) [] self w'
             eq_refl Hnd Hrgb).
Qed.

Lemma clean_after_filtering_is_identity_witness :
  exists w'',
    _clean
      (with_indices (Example.handle "val" 64 None)
         [("train",
           ["/d/train/n01/images/n01_10.JPEG";
            "/d/train/n02/images/n02_0.JPEG"]);
          ("val", snd (nth 1 Example.indices ("", [])));
          ("test", ["/d/test/images/test_0.JPEG"])])
      "purge"
      (snd (__init__ "/d" "val" 64 float32 None "skip" tt Example.world))
    = (Ok (with_indices (Example.handle "val" 64 None)
             [("train",
               ["/d/train/n01/images/n01_10.JPEG";
                "/d/train/n02/images/n02_0.JPEG"]);
              ("val", snd (nth 1 Example.indices ("", [])));
              ("test", ["/d/test/images/test_0.JPEG"])]), w'')
    /\ fs w''
       = fs (snd (__init__ "/d" "val" 64 float32 None "skip" tt
                   Example.world)).
Proof.
  apply (clean_after_filtering_is_identity "/d" "val" 64 float32 None
           "skip" tt Example.world _
           (snd (__init__ "/d" "val" 64 float32 None "skip" tt
                   Example.world)) "purge").
  - now left.
  - reflexivity.
  - simpl. tauto.
Defined.

Lemma filter_index_app purge l1 l2 :
  forall acc w,
    filter_index purge (l1 ++ l2) acc w
    = bind (filter_index purge l1 acc)
        (fun acc' => filter_index purge l2 acc') w.
Proof.
  induction l1 as [|path rest IH]; intros acc w.
  - unfold bind. reflexivity.
  - change ((path :: rest) ++ l2) with (path :: rest ++ l2).
    simpl filter_index. unfold bind.
    destruct (imread path w) as [[a|e] w1]; [|reflexivity].
    destruct (_is_rgb a); [exact (IH _ w1)|].
    destruct purge; [|exact (IH _ w1)].
    destruct (remove path w1) as [[u|e] w2];
      [exact (IH _ w2) | reflexivity].
Qed.

(** X11.  A purge that fails keeps what it has already done: when the
    train index holds, after files that decode and whose rejects could be
    removed, a path that does not decode or a rejected file that the
    operating system refuses to remove, [_clean] in mode purge raises the
    error of that path, and the rejected files that came before it are
    gone from the disk while every path outside that part of the index
    names what it named before. *)
Theorem purge_failure_keeps_deletions self w pre bad post va te :
  _indices self
  = [(DATASET_TRAIN, pre ++ bad :: post); (DATASET_VAL, va);
     (DATASET_TEST, te)] ->
  (forall p, In p pre -> decodable (fs w) p) ->
  NoDup pre ->
  deletable_rejects (fs w) pre ->
  stops_purge (fs w) bad ->
  exists w',
    _clean self CLEAN_PURGE w = (Raise (ExternalError bad), w')
    /\ (forall p, In p pre -> decodes_to_rgb (fs w) p = false ->
                  node_at (fs w') p = None)
    /\ (forall p, ~ In p pre -> node_at (fs w') p = node_at (fs w) p).
Proof.
  intros Hi Hdec Hnd Hrm Hbad.
  destruct (filter_index_spec true pre [] w Hdec (fun _ => Hnd)
              (fun _ => Hrm)) as (w1 & E1 & Hc1 & Hr1).
  simpl in Hc1.
  assert (Hnotin : ~ In bad pre).
  { intros Hin. destruct Hbad as [Hb|[Hb1 Hb2]].
    - destruct (Hdec bad Hin) as [a Ha]. exact (Hb a Ha).
    - rewrite (Hrm bad Hin Hb1) in Hb2. discriminate. }
  assert (Hb1 : node_at (fs w1) bad = node_at (fs w) bad)
    by (rewrite Hc1, rejected_not_in; auto).
  assert (Hstep : exists w',
             filter_index true (bad :: post) ([] ++ filter
               (decodes_to_rgb (fs w)) pre) w1
             = (Raise (ExternalError bad), w') /\ fs w' = fs w1).
  { simpl filter_index. unfold bind at 1. unfold imread. rewrite Hb1.
    destruct (node_at (fs w) bad) as [[|a|]|] eqn:Hn;
      try (eexists; split; reflexivity).
    destruct Hbad as [Hb|[Hd Hc]]; [exfalso; exact (Hb a Hn)|].
    unfold decodes_to_rgb in Hd. rewrite Hn in Hd. rewrite Hd.
    unfold bind at 1. unfold remove. simpl fs. rewrite Hb1, Hr1, Hc.
    eexists; split; reflexivity. }
  destruct Hstep as (w' & Estep & Hfs).
  exists w'. split; [|split].
  - unfold _clean, _filter_non_rgb.
    change (String.eqb CLEAN_PURGE CLEAN_SKIP) with false.
    change (String.eqb CLEAN_PURGE CLEAN_PURGE) with true. cbv iota.
    rewrite Hi. simpl filter_items. unfold bind at 1.
    rewrite filter_index_app. unfold bind at 1. rewrite E1.
    now rewrite Estep.
  - intros p Hin Hd. rewrite Hfs, Hc1. unfold rejected. rewrite Hd.
    assert (Ex : existsb (String.eqb p) pre = true).
    { apply existsb_exists. exists p. split; [exact Hin|].
      apply String.eqb_refl. }
    now rewrite Ex.
  - intros p Hn. rewrite Hfs, Hc1. now rewrite rejected_not_in.
Qed.

Lemma purge_failure_keeps_deletions_witness :
  (exists w',
      _clean broken_handle CLEAN_PURGE Example.world
      = (Raise (ExternalError "/d/train/n01/images"), w')
      /\ node_at (fs w') "/d/train/n01/images/n01_2.JPEG" = None
      /\ node_at (fs w') "/d/test/images/test_1.JPEG"
         = Some (ImageFile Example.rgba64))
  /\ (exists w',
         _clean locked_handle CLEAN_PURGE locked_world
         = (Raise (ExternalError "/d/test/images/test_1.JPEG"), w')
         /\ node_at (fs w') "/d/train/n01/images/n01_2.JPEG" = None
         /\ node_at (fs w') "/d/test/images/test_1.JPEG"
            = Some (ImageFile Example.rgba64)).
Proof.
  split.
  - destruct (purge_failure_keeps_deletions broken_handle Example.world
                ["/d/train/n01/images/n01_2.JPEG"] "/d/train/n01/images"
                ["/d/test/images/test_1.JPEG"] [] [])
      as (w' & E & Hgone & Hkept).
    + reflexivity.
    + intros p [<-|[]]. eexists. reflexivity.
    + repeat constructor. simpl. tauto.
    + intros p _ _. reflexivity.
    + left. intros a. discriminate.
    + exists w'. split; [exact E|]. split.
      * apply Hgone; [now left | reflexivity].
      * rewrite Hkept; [reflexivity|].
        simpl. intros [Hx|[]]. discriminate.
  - destruct (purge_failure_keeps_deletions locked_handle locked_world
                ["/d/train/n01/images/n01_2.JPEG"]
                "/d/test/images/test_1.JPEG"
                ["/d/train/n01/images/n01_10.JPEG"] [] [])
      as (w' & E & Hgone & Hkept).
    + reflexivity.
    + intros p [<-|[]]. eexists. reflexivity.
    + repeat constructor. simpl. tauto.
    + intros p [<-|[]] _. reflexivity.
    + right. split; reflexivity.
    + exists w'. split; [exact E|]. split.
      * apply Hgone; [now left | reflexivity].
      * rewrite Hkept; [reflexivity|].
        simpl. intros [Hx|[]]. discriminate.
Defined.

(* ================================================================== *)
(** ** Positions and slices *)

Lemma list_getitem_out_of_range {A} (l : list A) i :
  i < - Z.of_nat (List.length l) \/ Z.of_nat (List.length l) <= i ->
  Py.list_getitem l i = Raise IndexError.
Proof.
  intros Hi. unfold Py.list_getitem.
  destruct (Z.ltb_spec i 0).
  - destruct (Z.leb_spec 0 (i + Z.of_nat (List.length l))); [lia|].
    reflexivity.
  - destruct (Z.leb_spec 0 i); [|lia].
    destruct (Z.ltb_spec i (Z.of_nat (List.length l))); [lia|]. reflexivity.
Qed.

Lemma list_getitem_in_range {A} (l : list A) i :
  - Z.of_nat (List.length l) <= i < Z.of_nat (List.length l) ->
  exists x, Py.list_getitem l i = Ok x.
Proof.
  intros Hi. unfold Py.list_getitem.
  set (j := if i <? 0 then i + Z.of_nat (List.length l) else i).
  assert (Hj : 0 <= j < Z.of_nat (List.length l))
    by (unfold j; destruct (Z.ltb_spec i 0); lia).
  destruct (Z.leb_spec 0 j); [|lia].
  destruct (Z.ltb_spec j (Z.of_nat (List.length l))); [|lia]. simpl.
  destruct (nth_error l (Z.to_nat j)) as [x|] eqn:E; [now exists x|].
  apply nth_error_None in E. lia.
Qed.

Lemma list_getitem_negative {A} (l : list A) i :
  - Z.of_nat (List.length l) <= i < 0 ->
  Py.list_getitem l i = Py.list_getitem l (i + Z.of_nat (List.length l)).
Proof.
  intros Hi. unfold Py.list_getitem.
  destruct (Z.ltb_spec i 0); [|lia].
  destruct (Z.ltb_spec (i + Z.of_nat (List.length l)) 0); [lia|].
  reflexivity.
Qed.

Lemma shape_check_total image :
  exists b,
    (if _is_rgb image then _has_right_size image else Ok false) = Ok b.
Proof.
  destruct (list_eq_dec Z.eq_dec (shape image) [64; 64; 3]) as [E|E].
  - exists true. now apply shape_check_true.
  - exists false. now apply shape_check_false.
Qed.

Section Positions.
Context `{Collaborators}.

Lemma getitem_in_range_no_index_error self index_list i w :
  Py.dict_get (_indices self) (_dataset self) = Ok index_list ->
  - Z.of_nat (List.length index_list) <= i
    < Z.of_nat (List.length index_list) ->
  fst (_getitem self i w) <> Raise IndexError.
Proof.
  intros Hd Hi.
  destruct (list_getitem_in_range index_list i Hi) as [path Hp].
  unfold _getitem, bind, lift, imread, call_resize, raise, ret.
  rewrite Hd, Hp.
  destruct (node_at (fs w) path) as [[|image|]|]; try discriminate.
  destruct (shape_check_total image) as [b ->].
  destruct b; simpl; [|discriminate].
  destruct (_image_size self =? IMAGE_SIZE_ACTUAL); discriminate.
Qed.

(** X12.  A position outside [-n, n), for an active index of [n] entries,
    makes [_getitem] raise [IndexError] before any file is read, whatever
    the limit is; a position inside never ends in [IndexError], so an array
    of fewer than three dimensions is rejected by the assertion and not by
    an index error of the shape. *)
Theorem getitem_index_error_iff self index_list i w :
  Py.dict_get (_indices self) (_dataset self) = Ok index_list ->
  (i < - Z.of_nat (List.length index_list)
   \/ Z.of_nat (List.length index_list) <= i ->
   _getitem self i w = (Raise IndexError, w))
  /\ (- Z.of_nat (List.length index_list) <= i
        < Z.of_nat (List.length index_list) ->
      fst (_getitem self i w) <> Raise IndexError).
Proof.
  intros Hd. split.
  - intros Hi. unfold _getitem, bind, lift.
    now rewrite Hd, (list_getitem_out_of_range index_list i Hi).
  - now apply getitem_in_range_no_index_error.
Qed.

(** X13.  Negative positions count from the end of the active index: for
    an index of [n] entries and [-n <= i < 0], [_getitem] at [i] does what
    it does at [i + n]. *)
Theorem getitem_negative_position self index_list i w :
  Py.dict_get (_indices self) (_dataset self) = Ok index_list ->
  - Z.of_nat (List.length index_list) <= i < 0 ->
  _getitem self i w
  = _getitem self (i + Z.of_nat (List.length index_list)) w.
Proof.
  intros Hd Hi. unfold _getitem, bind, lift.
  now rewrite Hd, (list_getitem_negative index_list i Hi).
Qed.

End Positions.

Lemma getitem_index_error_iff_witness :
  @_getitem Example.ops (Example.handle "val" 64 (Some 4)) 6 Example.world
  = (Raise IndexError, Example.world)
  /\ fst (@_getitem Example.ops (Example.handle "val" 64 (Some 4)) 5
            Example.world) <> Raise IndexError.
Proof.
  destruct (@getitem_index_error_iff Example.ops
              (Example.handle "val" 64 (Some 4))
              (snd (nth 1 Example.indices ("", []))) 6 Example.world
              eq_refl) as [Hout _].
  destruct (@getitem_index_error_iff Example.ops
              (Example.handle "val" 64 (Some 4))
              (snd (nth 1 Example.indices ("", []))) 5 Example.world
              eq_refl) as [_ Hin].
  split; [apply Hout | apply Hin]; simpl; lia.
Defined.

Lemma getitem_negative_position_witness :
  @_getitem Example.ops (Example.handle "test" 64 None) (-1) Example.world
  = @_getitem Example.ops (Example.handle "test" 64 None) 1 Example.world.
Proof.
  apply (@getitem_negative_position Example.ops
           (Example.handle "test" 64 None)
           (snd (nth 2 Example.indices ("", []))) (-1) Example.world).
  - reflexivity.
  - simpl. lia.
Defined.

Lemma range_within start stop step k :
  step <> 0 -> In k (Py.range start stop step) ->
  (0 < step -> start <= k < stop) /\ (step < 0 -> stop < k <= start).
Proof.
  intros Hs. unfold Py.range. rewrite in_map_iff.
  intros (j & <- & Hj). apply in_seq in Hj.
  destruct (Z.ltb_spec 0 step) as [Hpos|Hneg].
  - split; [|lia]. intros _.
    pose proof (Z.mul_div_le (stop - start + step - 1) step Hpos) as Hd.
    assert (Hn : Z.of_nat j + 1 <= (stop - start + step - 1) / step) by lia.
    nia.
  - split; [lia|]. intros _.
    assert (Hpos : 0 < - step) by lia.
    pose proof (Z.mul_div_le (start - stop - step - 1) (- step) Hpos) as Hd.
    assert (Hn : Z.of_nat j + 1 <= (start - stop - step - 1) / - step)
      by lia.
    nia.
Qed.

Lemma slice_indices_within s n start stop step :
  0 <= n -> Py.slice_indices s n = Ok (start, stop, step) ->
  step <> 0
  /\ (0 < step -> 0 <= start /\ stop <= n)
  /\ (step < 0 -> start <= n - 1 /\ -1 <= stop).
Proof.
  intros Hn. unfold Py.slice_indices.
  set (st := match Py.slice_step s with Some k => k | None => 1 end).
  destruct (Z.eqb_spec st 0) as [|Hst]; [discriminate|].
  destruct (Z.ltb_spec n 0); [lia|].
  intros [= <- <- <-]. split; [exact Hst|].
  destruct (Z.ltb_spec st 0) as [Hneg|Hpos]; split; try lia; intros _.
  - split.
    + destruct (Py.slice_start s) as [v|]; [|lia].
      destruct (Z.ltb_spec v 0); lia.
    + destruct (Py.slice_stop s) as [v|]; [|lia].
      destruct (Z.ltb_spec v 0); lia.
  - split.
    + destruct (Py.slice_start s) as [v|]; [|lia].
      destruct (Z.ltb_spec v 0); lia.
    + destruct (Py.slice_stop s) as [v|]; [|lia].
      destruct (Z.ltb_spec v 0); lia.
Qed.

Lemma slice_positions_bounds self index_list s ps :
  Py.dict_get (_indices self) (_dataset self) = Ok index_list ->
  slice_positions self s = Ok ps ->
  forall k, In k ps -> 0 <= k < Z.of_nat (List.length index_list).
Proof.
  intros Hd. unfold slice_positions. rewrite Hd. simpl.
  destruct (Py.slice_indices s (Z.of_nat (List.length index_list)))
    as [[[start stop] step]|e] eqn:E; simpl; [|discriminate].
  intros [= <-] k Hk.
  destruct (slice_indices_within s _ start stop step (Nat2Z.is_nonneg _) E)
    as (Hs & Hp & Hn).
  destruct (range_within start stop step k Hs Hk) as [Rp Rn].
  destruct (Z.ltb_spec 0 step); [specialize (Hp H); specialize (Rp H)
                                | assert (Hl : step < 0) by lia;
                                  specialize (Hn Hl); specialize (Rn Hl)];
    lia.
Qed.

Lemma mapM_io_error {A B} (f : A -> M B) l e :
  forall w,
    fst (mapM f l w) = Raise e ->
    exists x w1, In x l /\ fst (f x w1) = Raise e.
Proof.
  induction l as [|x l IH]; intros w; [discriminate|].
  simpl. unfold bind at 1.
  destruct (f x w) as [[y|e'] w1] eqn:Ex.
  - unfold bind at 1.
    destruct (mapM f l w1) as [[ys|e''] w2] eqn:El; [discriminate|].
    simpl. intros [= <-].
    destruct (IH w1) as (x' & w' & Hin & Hx); [now rewrite El|].
    exists x', w'. auto.
  - simpl. intros [= <-]. exists x, w. rewrite Ex. auto.
Qed.

(** X14.  A slice never reaches outside the active index: step 0 raises
    [ValueError] before any file is read, and for every other slice all
    resolved positions lie in [0, n), so [__getitem__] with a slice never
    ends in [IndexError], whatever start, stop and step are. *)
Theorem slice_stays_within_index `{Collaborators} self index_list s :
  Py.dict_get (_indices self) (_dataset self) = Ok index_list ->
  (Py.slice_step s = Some 0 ->
   forall w,
     __getitem__ self (Range s) w
     = (Raise (ValueError "slice step cannot be zero"), w))
  /\ (Py.slice_step s <> Some 0 ->
      exists ps,
        slice_positions self s = Ok ps
        /\ forall k, In k ps ->
                     0 <= k < Z.of_nat (List.length index_list))
  /\ (forall w, fst (__getitem__ self (Range s) w) <> Raise IndexError).
Proof.
  intros Hd.
  assert (Hzero : Py.slice_step s = Some 0 ->
                  slice_positions self s
                  = Raise (ValueError "slice step cannot be zero")).
  { intros E. unfold slice_positions. rewrite Hd. simpl.
    unfold Py.slice_indices. now rewrite E. }
  assert (Hok : Py.slice_step s <> Some 0 ->
                exists ps, slice_positions self s = Ok ps).
  { intros Hne. unfold slice_positions. rewrite Hd. simpl.
    unfold Py.slice_indices.
    destruct (Py.slice_step s) as [k|] eqn:Ek.
    - destruct (Z.eqb_spec k 0) as [->|]; [congruence|].
      destruct (Z.ltb_spec (Z.of_nat (List.length index_list)) 0); [lia|].
      simpl. eauto.
    - simpl. destruct (Z.ltb_spec (Z.of_nat (List.length index_list)) 0);
        [lia|]. simpl. eauto. }
  split; [|split].
  - intros E w. unfold __getitem__, bind, lift. now rewrite (Hzero E).
  - intros Hne. destruct (Hok Hne) as [ps Hps]. exists ps.
    split; [exact Hps|]. now apply (slice_positions_bounds self index_list s).
  - intros w. unfold __getitem__, bind, lift.
    destruct (slice_positions self s) as [ps|e] eqn:Eps.
    + destruct (mapM (_getitem self) ps w) as [[l|e] w1] eqn:Em;
        [discriminate|].
      simpl. intros [= ->].
      destruct (mapM_io_error (_getitem self) ps IndexError w)
        as (k & w2 & Hin & Hk); [now rewrite Em|].
      revert Hk.
      apply (getitem_in_range_no_index_error self index_list k w2 Hd).
      pose proof (slice_positions_bounds self index_list s ps Hd Eps k Hin).
      lia.
    + simpl. intros [= ->].
      destruct (Py.slice_step s) as [[| |]|] eqn:Ek.
      * specialize (Hzero eq_refl). congruence.
      * destruct Hok as [ps Hps]; [discriminate | congruence].
      * destruct Hok as [ps Hps]; [discriminate | congruence].
      * destruct Hok as [ps Hps]; [discriminate | congruence].
Qed.

Lemma slice_stays_within_index_witness :
  (forall w,
      @__getitem__ Example.ops (Example.handle "val" 64 None)
        (Range (Py.Slice None None (Some 0))) w
      = (Raise (ValueError "slice step cannot be zero"), w))
  /\ exists ps,
       slice_positions (Example.handle "val" 64 None)
         (Py.Slice (Some 9) (Some (-9)) (Some (-2))) = Ok ps
       /\ forall k, In k ps -> 0 <= k < 6.
Proof.
  destruct (@slice_stays_within_index Example.ops
              (Example.handle "val" 64 None)
              (snd (nth 1 Example.indices ("", [])))
              (Py.Slice None None (Some 0)) eq_refl) as (Hz & _ & _).
  destruct (@slice_stays_within_index Example.ops
              (Example.handle "val" 64 None)
              (snd (nth 1 Example.indices ("", [])))
              (Py.Slice (Some 9) (Some (-9)) (Some (-2))) eq_refl)
    as (_ & Hin & _).
  split; [now apply Hz|]. apply Hin. discriminate.
Defined.

(* ================================================================== *)
(** ** Switching the split of an instance *)

(** X15.  On an instance that [__init__] returned, assigning any of the
    three known splits to [dataset] succeeds and changes nothing but the
    active split, whose index is always present, so that [__len__] then
    answers for that split; assigning anything else raises [ValueError] and
    leaves the instance as it was. *)
Theorem dataset_setter_after_init {T} root dataset image_size dt lim clean
    (t : T) w self w' d w2 :
  __init__ root dataset image_size dt lim clean t w = (Ok self, w') ->
  (In d valid_datasets ->
   exists index_list,
     dataset_setter self d w2 = (Ok (with_dataset self d), w2)
     /\ Py.dict_get (_indices self) d = Ok index_list
     /\ __len__ (with_dataset self d)
        = Ok match lim with
             | Some k => Z.min k (Z.of_nat (List.length index_list))
             | None => Z.of_nat (List.length index_list)
             end)
  /\ (~ In d valid_datasets ->
      dataset_setter self d w2
      = (Raise (ValueError "dataset must be either of train, val, test"),
         w2)).
Proof.
  intros E. apply init_ok_inv in E as (_ & _ & _ & Hc & Hk).
  assert (Elim : limit self = lim) by exact (f_equal limit Hc).
  split.
  - intros Hd.
    destruct (dict_get_key (_indices self) d) as [l Hl];
      [rewrite Hk; exact Hd|].
    exists l. split; [|split].
    + unfold dataset_setter. fold valid_datasets.
      apply valid_dataset_iff in Hd. now rewrite Hd.
    + exact Hl.
    + unfold __len__. simpl. rewrite Hl. simpl. rewrite Elim.
      now destruct lim.
  - intros Hd. unfold dataset_setter. fold valid_datasets.
    destruct (existsb (String.eqb d) valid_datasets) eqn:Ed;
      [|reflexivity].
    apply valid_dataset_iff in Ed. contradiction.
Qed.

Lemma dataset_setter_after_init_witness :
  (exists index_list,
      dataset_setter (Example.handle "val" 64 (Some 4)) "test" Example.world
      = (Ok (with_dataset (Example.handle "val" 64 (Some 4)) "test"),
         Example.world)
      /\ Py.dict_get (_indices (Example.handle "val" 64 (Some 4))) "test"
         = Ok index_list
      /\ __len__ (with_dataset (Example.handle "val" 64 (Some 4)) "test")
         = Ok (Z.min 4 (Z.of_nat (List.length index_list))))
  /\ dataset_setter (Example.handle "val" 64 (Some 4)) "validation"
       Example.world
     = (Raise (ValueError "dataset must be either of train, val, test"),
        Example.world).
Proof.
  destruct (dataset_setter_after_init "/d" "val" 64 float32 (Some 4)
              "assume" tt Example.world
              (Example.handle "val" 64 (Some 4)) Example.world
              "test" Example.world eq_refl) as [Hin _].
  destruct (dataset_setter_after_init "/d" "val" 64 float32 (Some 4)
              "assume" tt Example.world
              (Example.handle "val" 64 (Some 4)) Example.world
              "validation" Example.world eq_refl) as [_ Hout].
  split.
  - apply Hin. simpl. tauto.
  - apply Hout. simpl. intuition discriminate.
Defined.

(* ================================================================== *)
(** ** The calls of a cleaning pass, in order *)

Lemma clean_events_app purge f l1 l2 :
  clean_events purge f (l1 ++ l2)
  = clean_events purge f l1 ++ clean_events purge f l2.
Proof. unfold clean_events. apply flat_map_app. Qed.

Lemma clean_events_ext purge f f' l :
  (forall p, In p l -> node_at f' p = node_at f p) ->
  clean_events purge f' l = clean_events purge f l.
Proof.
  induction l as [|x l IH]; intros Hl; [reflexivity|].
  simpl. rewrite IH; [|intros p Hp; apply Hl; now right].
  now rewrite (decodes_to_rgb_ext f f' x (Hl x (or_introl eq_refl))).
Qed.

Lemma clean_events_skip f l : clean_events false f l = map EvImread l.
Proof.
  induction l as [|x l IH]; [reflexivity|]. simpl. now rewrite IH.
Qed.

Lemma filter_index_step_trace purge path a rest acc w :
  node_at (fs w) path = Some (ImageFile a) ->
  (purge = true -> deletable_rejects (fs w) [path]) ->
  exists w1,
    cleaned_disk purge (fs w) [path] (fs w1)
    /\ can_remove (fs w1) = can_remove (fs w)
    /\ trace w1 = trace w ++ clean_events purge (fs w) [path]
    /\ filter_index purge (path :: rest) acc w
       = filter_index purge rest
           (acc ++ filter (decodes_to_rgb (fs w)) [path]) w1.
Proof.
  intros Ha Hrm. simpl filter_index. unfold bind at 1. unfold imread.
  rewrite Ha. simpl filter. unfold clean_events. simpl flat_map.
  rewrite app_nil_r.
  assert (Ed : decodes_to_rgb (fs w) path = _is_rgb a)
    by (unfold decodes_to_rgb; now rewrite Ha).
  rewrite Ed. destruct (_is_rgb a) eqn:Ergb.
  - exists (log (EvImread path) w). rewrite andb_false_r.
    split; [|split; [|split]; reflexivity].
    destruct purge; simpl; [|reflexivity].
    intros p. unfold rejected. simpl. rewrite orb_false_r.
    destruct (String.eqb_spec p path) as [->|]; [|reflexivity].
    now rewrite Ed.
  - rewrite app_nil_r. destruct purge.
    + unfold bind at 1. unfold remove. simpl fs. rewrite Ha.
      rewrite (Hrm eq_refl path (or_introl eq_refl) Ed).
      exists {| fs := unlink path (fs w);
                trace := trace (log (EvImread path) w) ++ [EvRemove path] |}.
      split; [|split; [|split]]; try reflexivity.
      * simpl. intros p. unfold rejected. simpl. rewrite orb_false_r.
        destruct (String.eqb_spec p path) as [->|]; [|reflexivity].
        now rewrite Ed.
      * simpl. now rewrite <- app_assoc.
    + exists (log (EvImread path) w). repeat split.
Qed.

Lemma filter_index_trace purge index_list :
  forall acc w,
    (forall p, In p index_list -> decodable (fs w) p) ->
    (purge = true -> NoDup index_list) ->
    (purge = true -> deletable_rejects (fs w) index_list) ->
    trace (snd (filter_index purge index_list acc w))
    = trace w ++ clean_events purge (fs w) index_list.
Proof.
  induction index_list as [|path rest IH]; intros acc w Hdec Hnd Hrm.
  - simpl. now rewrite app_nil_r.
  - destruct (Hdec path (or_introl eq_refl)) as [a Ha].
    destruct (filter_index_step_trace purge path a rest acc w Ha)
      as (w1 & Hc1 & Hr1 & Ht1 & ->).
    { intros Hp p [<-|[]]. apply (Hrm Hp). now left. }
    assert (Hsame : forall p, In p rest ->
                              node_at (fs w1) p = node_at (fs w) p).
    { intros p Hp. eapply cleaned_disk_node; [exact Hc1|].
      intros Ep [E|[]]. subst p. specialize (Hnd Ep).
      now inversion Hnd. }
    rewrite IH.
    + rewrite Ht1, (clean_events_ext purge _ _ rest Hsame), <- app_assoc.
      now rewrite <- clean_events_app.
    + intros p Hp. destruct (Hdec p (or_intror Hp)) as [b Hb].
      exists b. now rewrite Hsame.
    + intros Hp. specialize (Hnd Hp). now inversion Hnd.
    + intros Hp.
      apply (deletable_rejects_ext (fs w)); [exact Hsame | exact Hr1|].
      intros p Hin. apply (Hrm Hp). now right.
Qed.

Lemma filter_items_trace purge items :
  forall self w,
    (forall p, In p (all_paths items) -> decodable (fs w) p) ->
    (purge = true -> NoDup (all_paths items)) ->
    (purge = true -> deletable_rejects (fs w) (all_paths items)) ->
    trace (snd (filter_items purge items self w))
    = trace w ++ clean_events purge (fs w) (all_paths items).
Proof.
  induction items as [|[k l] items IH]; intros self w Hdec Hnd Hrm.
  - simpl. now rewrite app_nil_r.
  - change (all_paths ((k, l) :: items)) with (l ++ all_paths items) in *.
    assert (Hdl : forall p, In p l -> decodable (fs w) p)
      by (intros p Hp; apply Hdec, in_or_app; now left).
    assert (Hnl : purge = true -> NoDup l)
      by (intros Hp; exact (NoDup_app_remove_r _ _ (Hnd Hp))).
    assert (Hrl : purge = true -> deletable_rejects (fs w) l)
      by (intros Hp p Hin; apply (Hrm Hp), in_or_app; now left).
    destruct (filter_index_spec purge l [] w Hdl Hnl Hrl)
      as (w1 & E1 & Hc1 & Hr1).
    pose proof (filter_index_trace purge l [] w Hdl Hnl Hrl) as Ht1.
    rewrite E1 in Ht1. simpl in Ht1.
    assert (Hsame : forall p, In p (all_paths items) ->
                              node_at (fs w1) p = node_at (fs w) p).
    { intros p Hp. eapply cleaned_disk_node; [exact Hc1|].
      intros Ep Hl. exact (NoDup_app_disjoint _ _ (Hnd Ep) p Hl Hp). }
    simpl filter_items. unfold bind at 1. rewrite E1.
    rewrite IH.
    + rewrite Ht1, (clean_events_ext purge _ _ _ Hsame), <- app_assoc.
      now rewrite <- clean_events_app.
    + intros p Hp. destruct (Hdec p) as [b Hb];
        [apply in_or_app; now right|].
      exists b. now rewrite Hsame.
    + intros Hp. exact (NoDup_app_remove_l _ _ (Hnd Hp)).
    + intros Hp.
      apply (deletable_rejects_ext (fs w)); [exact Hsame | exact Hr1|].
      intros p Hin. apply (Hrm Hp), in_or_app. now right.
Qed.

(** X16.  When every indexed file decodes, a cleaning pass decodes each
    indexed file once, in the order of the dictionary (train, then val,
    then test) and of each index; in mode skip it makes no other call, and
    in mode purge, with no path indexed twice and every rejected file
    removable, each rejected file is removed right after its own decode,
    before the next file is read. *)
Theorem clean_calls_in_index_order self w :
  (forall p, In p (all_paths (_indices self)) -> decodable (fs w) p) ->
  trace (snd (_clean self CLEAN_SKIP w))
  = trace w ++ map EvImread (all_paths (_indices self))
  /\ (NoDup (all_paths (_indices self)) ->
      deletable_rejects (fs w) (all_paths (_indices self)) ->
      trace (snd (_clean self CLEAN_PURGE w))
      = trace w ++ clean_events true (fs w) (all_paths (_indices self))).
Proof.
  intros Hdec. split.
  - rewrite <- (clean_events_skip (fs w)).
    apply (filter_items_trace false (_indices self) self w Hdec);
      discriminate.
  - intros Hnd Hrm.
    exact (filter_items_trace true (_indices self) self w Hdec
             (fun _ => Hnd) (fun _ => Hrm)).
Qed.

Lemma clean_calls_in_index_order_witness :
  trace (snd (_clean (Example.handle "test" 64 None) CLEAN_PURGE
                Example.world))
  = [EvImread "/d/train/n01/images/n01_2.JPEG";
     EvRemove "/d/train/n01/images/n01_2.JPEG";
     EvImread "/d/train/n01/images/n01_10.JPEG";
     EvImread "/d/train/n02/images/n02_0.JPEG";
     EvImread "/d/val/images/val_0.JPEG";
     EvImread "/d/val/images/val_1.JPEG";
     EvImread "/d/val/images/val_2.JPEG";
     EvImread "/d/val/images/val_3.JPEG";
     EvImread "/d/val/images/val_4.JPEG";
     EvImread "/d/val/images/val_5.JPEG";
     EvImread "/d/test/images/test_0.JPEG";
     EvImread "/d/test/images/test_1.JPEG";
     EvRemove "/d/test/images/test_1.JPEG"].
Proof.
  destruct (clean_calls_in_index_order (Example.handle "test" 64 None)
              Example.world example_decodable) as [_ Hp].
  exact (Hp example_nodup example_deletable).
Defined.

(* ================================================================== *)
(** ** Which error a construction ends in *)

Local Open Scope string_scope.
Local Open Scope Z_scope.

Lemma build_then_clean_invalid self clean w :
  ~ In clean valid_cleanings ->
  exists e,
    bind (_build_indices self) (fun s => _clean s clean) w = (Raise e, w)
    /\ (e = ValueError "invalid cleaning procedure" \/ e = no_match_error).
Proof.
  intros Hc. unfold bind.
  destruct (build_indices_listing_only self w) as [Hw He].
  destruct (_build_indices self w) as [[s|e] w1]; simpl in Hw; subst w1.
  - rewrite (clean_invalid s clean w Hc). eauto.
  - exists e. split; [reflexivity|]. right. now apply He.
Qed.

(** X17.  The arguments of [__init__] are checked in a fixed order and a
    rejected argument leaves the world as it was: a root that is not a
    directory gives the "not a directory" [ValueError] whatever the other
    arguments are; then an unknown split gives the "dataset must be"
    [ValueError]; then a size below 64 gives [AssertionError]; an unknown
    cleaning mode is only noticed after the indices have been built, so it
    gives "invalid cleaning procedure" unless a listing has failed first. *)
Theorem init_error_precedence {T} root dataset image_size dt lim clean
    (t : T) w :
  (is_directory (fs w) root = false ->
   __init__ root dataset image_size dt lim clean t w
   = (Raise (ValueError ("not a directory: '" ++ root ++ "'")), w))
  /\ (is_directory (fs w) root = true ->
      ~ In dataset valid_datasets ->
      __init__ root dataset image_size dt lim clean t w
      = (Raise (ValueError "dataset must be either of train, val, test"),
         w))
  /\ (is_directory (fs w) root = true ->
      In dataset valid_datasets ->
      image_size < IMAGE_SIZE_ACTUAL ->
      __init__ root dataset image_size dt lim clean t w
      = (Raise AssertionError, w))
  /\ (is_directory (fs w) root = true ->
      In dataset valid_datasets ->
      IMAGE_SIZE_ACTUAL <= image_size ->
      ~ In clean valid_cleanings ->
      exists e,
        __init__ root dataset image_size dt lim clean t w = (Raise e, w)
        /\ (e = ValueError "invalid cleaning procedure"
            \/ e = no_match_error)).
Proof.
  rewrite init_unfold. repeat split.
  - now intros ->.
  - intros -> Hd.
    destruct (existsb (String.eqb dataset) valid_datasets) eqn:Ed;
      [|reflexivity].
    apply valid_dataset_iff in Ed. contradiction.
  - intros -> Hd Hs. apply valid_dataset_iff in Hd. rewrite Hd.
    destruct (Z.leb_spec IMAGE_SIZE_ACTUAL image_size); [lia | reflexivity].
  - intros -> Hd Hs Hc. apply valid_dataset_iff in Hd. rewrite Hd.
    apply Z.leb_le in Hs. rewrite Hs. cbn [negb]. cbv iota.
    now apply build_then_clean_invalid.
Qed.

Lemma init_error_precedence_witness :
  __init__ "/nowhere" "validation" 32 float32 None "wipe" tt Example.world
  = (Raise (ValueError "not a directory: '/nowhere'"), Example.world)
  /\ __init__ "/d" "validation" 32 float32 None "wipe" tt Example.world
     = (Raise (ValueError "dataset must be either of train, val, test"),
        Example.world)
  /\ __init__ "/d" "val" 32 float32 None "wipe" tt Example.world
     = (Raise AssertionError, Example.world)
  /\ exists e,
       __init__ "/d" "val" 64 float32 None "wipe" tt Example.world
       = (Raise e, Example.world)
       /\ (e = ValueError "invalid cleaning procedure"
           \/ e = no_match_error).
Proof.
  split; [|split; [|split]].
  - apply (proj1 (init_error_precedence "/nowhere" "validation" 32 float32
                    None "wipe" tt Example.world)).
    reflexivity.
  - apply (proj1 (proj2 (init_error_precedence "/d" "validation" 32 float32
                           None "wipe" tt Example.world)));
      [reflexivity | simpl; intuition discriminate].
  - apply (proj1 (proj2 (proj2 (init_error_precedence "/d" "val" 32 float32
                                  None "wipe" tt Example.world))));
      [reflexivity | simpl; tauto | unfold IMAGE_SIZE_ACTUAL; lia].
  - apply (proj2 (proj2 (proj2 (init_error_precedence "/d" "val" 64 float32
                                  None "wipe" tt Example.world))));
      [reflexivity | simpl; tauto | unfold IMAGE_SIZE_ACTUAL; lia
      | simpl; intuition discriminate].
Defined.

(* ================================================================== *)
(** ** The two shape predicates *)

(** X18.  [_is_rgb] never fails and holds exactly for the arrays of three
    dimensions whose last one has size 3; [_has_right_size] on its own
    raises [IndexError] exactly on arrays of fewer than two dimensions, and
    otherwise answers whether the first two sizes are both 64, whatever
    follows them. *)
Theorem shape_predicates image :
  (_is_rgb image = true <-> exists h w, shape image = [h; w; 3])
  /\ (_has_right_size image = Raise IndexError
      <-> (List.length (shape image) < 2)%nat)
  /\ (_has_right_size image = Ok true
      <-> exists rest, shape image = 64 :: 64 :: rest).
Proof.
  unfold _is_rgb, _has_right_size.
  destruct (shape image) as [|a [|b rest]].
  - split; [|split]; split; simpl; try discriminate; try lia.
    + intros (h & w & E). discriminate.
    + intros _. reflexivity.
    + intros (r & E). discriminate.
  - split; [|split]; split; simpl; try discriminate; try lia.
    + intros (h & w & E). discriminate.
    + intros _. reflexivity.
    + intros (r & E). discriminate.
  - change (Py.list_getitem (a :: b :: rest) 0)
      with (Py.list_getitem (a :: b :: rest) (Z.of_nat 0)).
    change (Py.list_getitem (a :: b :: rest) 1)
      with (Py.list_getitem (a :: b :: rest) (Z.of_nat 1)).
    rewrite (list_getitem_nat (a :: b :: rest) 0 a eq_refl).
    rewrite (list_getitem_nat (a :: b :: rest) 1 b eq_refl).
    cbn [Res.bind]. split; [|split].
    + destruct rest as [|c [|d rest]]; simpl.
      * split; [discriminate | intros (h & w & E); discriminate].
      * split.
        -- intros E. apply Z.eqb_eq in E. subst. now exists a, b.
        -- intros (h & w & [= _ _ ->]). reflexivity.
      * split; [discriminate | intros (h & w & E); discriminate].
    + split; [discriminate | simpl; lia].
    + unfold IMAGE_SIZE_ACTUAL. split.
      * intros [= E]. apply andb_prop in E as [E1 E2].
        apply Z.eqb_eq in E1, E2. subst. now exists rest.
      * intros (r & [= -> -> _]). reflexivity.
Qed.
